(** * optimize_post_images: a shallow embedding and its properties

    The program reads one markdown post, extracts its image references,
    resolves them against the [Attachments] folder, plans an output name for
    each resolved image, transcodes the images to WebP and rewrites the
    markdown.  Python [str] values are modelled as [string]; matching,
    splitting and replacing only look at ASCII delimiters, so a UTF-8 byte
    string behaves like the sequence of code points it encodes. *)

From Stdlib Require Import ZArith Ascii String List Bool Lia.
From Stdlib Require Import DecimalString DecimalNat SpecFloat.
From stdpp Require Import base decidable list gmap strings.

Set Warnings "-clear-no-such-hyp".

Local Open Scope string_scope.

(** ** Python string primitives *)

Module PyStr.

(** [s.startswith(p)] *)
Fixpoint startswith (p s : string) : bool :=
  match p, s with
  | EmptyString, _ => true
  | String _ _, EmptyString => false
  | String a p', String b s' => Ascii.eqb a b && startswith p' s'
  end.

(** [s[n:]] *)
Fixpoint drop (n : nat) (s : string) : string :=
  match n, s with
  | O, _ => s
  | S _, EmptyString => EmptyString
  | S k, String _ s' => drop k s'
  end.

(** [s[:n]] *)
Fixpoint take (n : nat) (s : string) : string :=
  match n, s with
  | O, _ => EmptyString
  | S _, EmptyString => EmptyString
  | S k, String c s' => String c (take k s')
  end.

(** [needle in hay] *)
Fixpoint contains (needle hay : string) : bool :=
  startswith needle hay ||
  match hay with
  | EmptyString => false
  | String _ hay' => contains needle hay'
  end.

(** The longest prefix of [s] free of the character [stop], and what
    follows it. *)
Fixpoint span_until (stop : ascii) (s : string) : string * string :=
  match s with
  | EmptyString => (EmptyString, EmptyString)
  | String c s' =>
      if Ascii.eqb c stop then (EmptyString, s)
      else let '(a, b) := span_until stop s' in (String c a, b)
  end.

(** [stop not in s] *)
Fixpoint lacks (stop : ascii) (s : string) : bool :=
  match s with
  | EmptyString => true
  | String c s' => negb (Ascii.eqb c stop) && lacks stop s'
  end.

(** [s.split(sep)] for a one-character separator. *)
Fixpoint split (sep : ascii) (s : string) : list string :=
  match s with
  | EmptyString => [EmptyString]
  | String c s' =>
      if Ascii.eqb c sep then EmptyString :: split sep s'
      else match split sep s' with
           | [] => [String c EmptyString]
           | h :: r => String c h :: r
           end
  end.

(** [s.rfind(c)] *)
Fixpoint rfind (c : ascii) (s : string) : option nat :=
  match s with
  | EmptyString => None
  | String a s' =>
      match rfind c s' with
      | Some i => Some (S i)
      | None => if Ascii.eqb a c then Some O else None
      end
  end.

(** [s.replace(old, new)] scans left to right; [skip] counts the
    characters of the occurrence just replaced that are still to be
    dropped.  Python inserts [new] around every character when [old] is
    empty. *)
Fixpoint replace_from (old new s : string) (skip : nat) : string :=
  match s with
  | EmptyString => EmptyString
  | String c s' =>
      match skip with
      | S k => replace_from old new s' k
      | O =>
          if startswith old s
          then new ++ replace_from old new s' (String.length old - 1)
          else String c (replace_from old new s' O)
      end
  end.

Fixpoint intersperse (new s : string) : string :=
  match s with
  | EmptyString => new
  | String c s' => new ++ String c (intersperse new s')
  end.

Definition replace (old new s : string) : string :=
  match old with
  | EmptyString => intersperse new s
  | String _ _ => replace_from old new s O
  end.

Definition lower_char (c : ascii) : ascii :=
  let n := nat_of_ascii c in
  if (65 <=? n)%nat && (n <=? 90)%nat then ascii_of_nat (n + 32) else c.

(** [s.lower()], on the ASCII letters. *)
Fixpoint lower (s : string) : string :=
  match s with
  | EmptyString => EmptyString
  | String c s' => String (lower_char c) (lower s')
  end.

Definition upper_char (c : ascii) : ascii :=
  let n := nat_of_ascii c in
  if (97 <=? n)%nat && (n <=? 122)%nat then ascii_of_nat (n - 32) else c.

Fixpoint upper (s : string) : string :=
  match s with
  | EmptyString => EmptyString
  | String c s' => String (upper_char c) (upper s')
  end.

(** [f"{n:02d}"] *)
Definition format_02d (n : nat) : string :=
  let digits := NilEmpty.string_of_uint (Nat.to_uint n) in
  if (String.length digits <? 2)%nat then "0" ++ digits else digits.

End PyStr.

(** ** pathlib: the pure path operations the program uses *)

Module PyPath.

(** The components of [Path(p)]: empty and [.] segments are dropped. *)
Definition parts (p : string) : list string :=
  List.filter (fun c => negb (String.eqb c "") && negb (String.eqb c "."))
    (PyStr.split "/" p).

(** [Path(p).name] *)
Definition name (p : string) : string := List.last (parts p) "".

(** [PurePath.suffix] and [PurePath.stem] of a final component:
    the last dot splits the name unless it is its first or last
    character. *)
Definition split_ext (nm : string) : string * string :=
  match PyStr.rfind "." nm with
  | Some i =>
      if (0 <? i)%nat && (i <? String.length nm - 1)%nat
      then (PyStr.take i nm, PyStr.drop i nm)
      else (nm, "")
  | None => (nm, "")
  end.

Definition stem_of_name (nm : string) : string := fst (split_ext nm).
Definition suffix_of_name (nm : string) : string := snd (split_ext nm).

(** [Path(p).stem] and [Path(p).suffix] *)
Definition stem (p : string) : string := stem_of_name (name p).
Definition suffix (p : string) : string := suffix_of_name (name p).

End PyPath.

(** ** Markdown reference extraction *)

(** One attempt of the image pattern at the start of [s]: a bang and an
    opening bracket, a group of characters other than the closing bracket,
    a closing bracket and an opening parenthesis, a non-empty group of
    characters other than the closing parenthesis, a closing parenthesis.
    Each group is a negated character class followed by the very character
    it excludes, so the greedy match is the only one: the groups are the
    maximal runs.  The result is the two groups and the length of the
    match. *)
Definition match_here (s : string) : option (string * string * nat) :=
  match s with
  | String "!" (String "[" r0) =>
      let '(alt, r1) := PyStr.span_until "]" r0 in
      match r1 with
      | String "]" (String "(" r2) =>
          let '(path, r3) := PyStr.span_until ")" r2 in
          match path, r3 with
          | String _ _, String ")" _ =>
              Some (alt, path, 5 + String.length alt + String.length path)%nat
          | _, _ => None
          end
      | _ => None
      end
  | _ => None
  end.

(** [re.findall(pattern, s)]: leftmost matches, each search resuming
    where the previous match ended. *)
Fixpoint findall_from (s : string) (skip : nat) : list (string * string) :=
  match s with
  | EmptyString => []
  | String _ s' =>
      match skip with
      | S k => findall_from s' k
      | O =>
          match match_here s with
          | Some (alt, path, len) => (alt, path) :: findall_from s' (len - 1)
          | None => findall_from s' O
          end
      end
  end.

Definition findall (s : string) : list (string * string) := findall_from s O.

(** An image reference: (full match, alt text, path). *)
Definition image_ref : Type := string * string * string.

Definition ref_full (r : image_ref) : string := fst (fst r).
Definition ref_alt (r : image_ref) : string := snd (fst r).
Definition ref_path (r : image_ref) : string := snd r.

Definition link_text (alt path : string) : string :=
  "![" ++ alt ++ "](" ++ path ++ ")".

Definition extract_image_references (markdown_content : string) : list image_ref :=
  List.map (fun '(alt, path) => (link_text alt path, alt, path))
    (findall markdown_content).

(** ** Exceptions and results *)

Inductive exn : Type :=
  | ZeroDivisionError
  | OverflowError
  | ValueError
  | AttributeError
  | ImageError (text : string).

(** [str(e)] *)
Definition str_exn (e : exn) : string :=
  match e with
  | ZeroDivisionError => "division by zero"
  | OverflowError => "int too large to convert to float"
  | ValueError => "cannot convert float NaN to integer"
  | AttributeError => "'NoneType' object has no attribute 'upper'"
  | ImageError text => text
  end.

Inductive pyres (A : Type) : Type :=
  | Ok (a : A)
  | Raise (e : exn).

Arguments Ok {A} a.
Arguments Raise {A} e.

Definition pybind {A B : Type} (r : pyres A) (k : A -> pyres B) : pyres B :=
  match r with
  | Ok a => k a
  | Raise e => Raise e
  end.

Notation "'try' x <- r 'in' k" := (pybind r (fun x => k))
  (at level 10, x pattern, r at level 100, k at level 200,
   format "'[v' 'try'  x  <-  r  'in' '/' k ']'").

(** ** Python numbers: unbounded [int] as [Z], [float] as binary64 *)

Module PyNum.

Definition prec : Z := 53.
Definition emax : Z := 1024.

Definition float : Type := spec_float.

Definition int_as_float (n : Z) : float :=
  match n with
  | Z0 => S754_zero false
  | Zpos p => S754_finite false p 0
  | Zneg p => S754_finite true p 0
  end.

Definition check_finite (f : float) : pyres float :=
  match f with
  | S754_infinity _ => Raise OverflowError
  | _ => Ok f
  end.

(** [float(n)]: the nearest binary64, ties to even. *)
Definition float_of_int (n : Z) : pyres float :=
  check_finite (binary_normalize prec emax n 0 false).

(** [a / b] on two ints: the correctly rounded quotient. *)
Definition truediv (a b : Z) : pyres float :=
  if (b =? 0)%Z then Raise ZeroDivisionError
  else
    match a with
    | Z0 => Ok (S754_zero (b <? 0)%Z)
    | _ => check_finite (SFdiv prec emax (int_as_float a) (int_as_float b))
    end.

(** [n * f], [f * n] and [n - f] with an int [n]: the int is converted
    first. *)
Definition int_mul_float (n : Z) (f : float) : pyres float :=
  try x <- float_of_int n in Ok (SFmul prec emax x f).

Definition float_mul_int (f : float) (n : Z) : pyres float :=
  try y <- float_of_int n in Ok (SFmul prec emax f y).

Definition int_sub_float (n : Z) (f : float) : pyres float :=
  try x <- float_of_int n in Ok (SFsub prec emax x f).

(** [int(f)]: truncation toward zero. *)
Definition int_of_float (f : float) : pyres Z :=
  match f with
  | S754_nan => Raise ValueError
  | S754_infinity _ => Raise OverflowError
  | S754_zero _ => Ok 0%Z
  | S754_finite s m e =>
      let a := match e with
               | Zneg k => Z.quot (Zpos m) (Z.pow_pos 2 k)
               | _ => (Zpos m * 2 ^ e)%Z
               end in
      Ok (if s then Z.opp a else a)
  end.

(** [round(f)]: the nearest integer, ties to even. *)
Definition round_float (f : float) : pyres Z :=
  match f with
  | S754_nan => Raise ValueError
  | S754_infinity _ => Raise OverflowError
  | S754_zero _ => Ok 0%Z
  | S754_finite s m e =>
      let a := match e with
               | Zneg k =>
                   let d := Z.pow_pos 2 k in
                   let q := (Zpos m / d)%Z in
                   let r := (Zpos m mod d)%Z in
                   match (2 * r ?= d)%Z with
                   | Lt => q
                   | Gt => (q + 1)%Z
                   | Eq => if Z.even q then q else (q + 1)%Z
                   end
               | _ => (Zpos m * 2 ^ e)%Z
               end in
      Ok (if s then Z.opp a else a)
  end.

End PyNum.

(** ** File types *)

Inductive file_type : Type :=
  | Jpeg | Heic | Tiff | Png | Webp | Video.

Definition file_type_str (t : file_type) : string :=
  match t with
  | Jpeg => "jpeg" | Heic => "heic" | Tiff => "tiff"
  | Png => "png" | Webp => "webp" | Video => "video"
  end.

Definition get_file_type (filename : string) : option file_type :=
  let ext := PyStr.lower (PyPath.suffix filename) in
  if String.eqb ext ".jpg" || String.eqb ext ".jpeg" then Some Jpeg
  else if String.eqb ext ".heic" then Some Heic
  else if String.eqb ext ".tif" || String.eqb ext ".tiff" then Some Tiff
  else if String.eqb ext ".png" then Some Png
  else if String.eqb ext ".webp" then Some Webp
  else if String.eqb ext ".mov" || String.eqb ext ".mp4" || String.eqb ext ".avi"
  then Some Video
  else None.

(** ** The attachments directory and the resolver *)

(** A directory is its listing in [iterdir()] order. *)
Record dir_entry : Type := { entry_name : string; entry_is_file : bool }.

Definition directory : Type := list dir_entry.

Definition attachments_name : string := "Attachments".

(** [(attachments_dir / filename).exists()] for a [filename] that is the
    final component of a path, as the caller passes it: the empty name
    joins to the directory itself and [..] to its parent, which both
    exist once validation has passed. *)
Definition path_exists (d : directory) (filename : string) : bool :=
  String.eqb filename "" || String.eqb filename ".." ||
  List.existsb (fun e => String.eqb (entry_name e) filename) d.

(** [(attachments_dir / filename).name] *)
Definition joined_name (filename : string) : string :=
  if String.eqb filename "" then attachments_name else filename.

(** The tests of the two fallback loops. *)
Definition stem_match (basename : string) (file : dir_entry) : bool :=
  entry_is_file file && String.eqb (PyPath.stem_of_name (entry_name file)) basename.

Definition substring_match (basename : string) (file : dir_entry) : bool :=
  entry_is_file file && PyStr.contains basename (entry_name file).

(** The resolver; a found path is represented by its [name]. *)
Definition find_file_by_basename (d : directory) (filename : string) : option string :=
  if path_exists d filename then Some (joined_name filename)
  else
    let basename := PyPath.stem filename in
    match List.find (stem_match basename) d with
    | Some file => Some (entry_name file)
    | None =>
        match List.find (substring_match basename) d with
        | Some file => Some (entry_name file)
        | None => None
        end
    end.

(** ** Planning *)

(** A plan entry: (resolved source file, output filename, index). *)
Definition plan_entry : Type := string * string * nat.

Definition plan_source (p : plan_entry) : string := fst (fst p).
Definition plan_new_name (p : plan_entry) : string := snd (fst p).
Definition plan_index (p : plan_entry) : nat := snd p.

(** Console output is recorded by kind and payload. *)
Inductive message : Type :=
  | MsgValidating
  | MsgInvalid (reason : string)
  | MsgValid
  | MsgMarkdownFound (name : string)
  | MsgRefCount (n : nat)
  | MsgNotFound (filename : string)
  | MsgSkipVideo (filename : string)
  | MsgUnknownType (filename : string)
  | MsgSummary (missing unused : nat)
  | MsgDryRunHeader
  | MsgDryRunRow (source new_name : string)
  | MsgDryRunFooter (count : nat) (output_dir : string) (quality max_width : Z)
      (hugo_path : option string)
  | MsgOutputDir (output_dir : string)
  | MsgProcessing
  | MsgProcessingFile (source new_name : string)
  | MsgImageDone (new_name : string) (original_size new_size compression : Z)
  | MsgImageFailed (source error : string)
  | MsgUpdatingMarkdown
  | MsgMarkdownSaved (name : string)
  | MsgCopying (hugo_path : string)
  | MsgCopied (hugo_path : string)
  | MsgStatistics (succeeded total : nat) (original_size new_size : Z)
      (missing unused skipped : list string).

Record plan_state : Type := {
  files_to_process : list plan_entry;
  processed_files : gset string;
  missing_files : list string;
  skipped_videos : list string;
  unknown_types : list string;
  plan_log : list message
}.

Definition plan_init : plan_state :=
  {| files_to_process := []; processed_files := ∅; missing_files := [];
     skipped_videos := []; unknown_types := []; plan_log := [] |}.

(** The filename the loop hands to the resolver. *)
Definition referenced_filename (path : string) : string :=
  let filename := PyPath.name path in
  if PyStr.startswith "Attachments/" filename
  then PyStr.replace "Attachments/" "" filename
  else filename.

Definition when_verbose (verbose : bool) (m : message) : list message :=
  if verbose then [m] else [].

(** The output filename of a planned reference. *)
Definition new_filename (no_rename : bool) (filename : string) (idx : nat) : string :=
  (if no_rename then PyPath.stem filename else "img_" ++ PyStr.format_02d idx)
  ++ ".webp".

(** One iteration of the planning loop. *)
Definition plan_step (d : directory) (no_rename verbose : bool)
    (st : plan_state) (idx : nat) (r : image_ref) : plan_state :=
  let filename := referenced_filename (ref_path r) in
  match find_file_by_basename d filename with
  | None =>
      {| files_to_process := files_to_process st;
         processed_files := processed_files st;
         missing_files := missing_files st ++ [filename];
         skipped_videos := skipped_videos st;
         unknown_types := unknown_types st;
         plan_log := plan_log st ++ when_verbose verbose (MsgNotFound filename) |}
  | Some file_path =>
      match get_file_type file_path with
      | Some Video =>
          {| files_to_process := files_to_process st;
             processed_files := processed_files st;
             missing_files := missing_files st;
             skipped_videos := skipped_videos st ++ [filename];
             unknown_types := unknown_types st;
             plan_log := plan_log st ++ when_verbose verbose (MsgSkipVideo filename) |}
      | None =>
          {| files_to_process := files_to_process st;
             processed_files := processed_files st;
             missing_files := missing_files st;
             skipped_videos := skipped_videos st;
             unknown_types := unknown_types st ++ [filename];
             plan_log := plan_log st ++ when_verbose verbose (MsgUnknownType filename) |}
      | Some _ =>
          {| files_to_process :=
               files_to_process st ++ [(file_path, new_filename no_rename filename idx, idx)];
             processed_files := processed_files st ∪ {[ file_path ]};
             missing_files := missing_files st;
             skipped_videos := skipped_videos st;
             unknown_types := unknown_types st;
             plan_log := plan_log st |}
      end
  end.

(** [for idx, ref in enumerate(image_refs, start=idx)] *)
Fixpoint plan_loop (d : directory) (no_rename verbose : bool)
    (st : plan_state) (idx : nat) (refs : list image_ref) : plan_state :=
  match refs with
  | [] => st
  | r :: refs' =>
      plan_loop d no_rename verbose (plan_step d no_rename verbose st idx r)
        (S idx) refs'
  end.

Definition build_plan (d : directory) (no_rename verbose : bool)
    (image_refs : list image_ref) : plan_state :=
  plan_loop d no_rename verbose plan_init 1 image_refs.

(** The names of the regular files of the attachments directory. *)
Definition all_files (d : directory) : gset string :=
  list_to_set (List.map entry_name (List.filter entry_is_file d)).

Definition unused_files (d : directory) (st : plan_state) : list string :=
  elements (all_files d ∖ processed_files st).

(** ** Rewriting the markdown *)

(** The loop over [zip(image_refs, files_to_process)]. *)
Fixpoint rewrite_loop (new_markdown : string) (image_refs : list image_ref)
    (plan : list plan_entry) : string :=
  match image_refs, plan with
  | r :: refs', p :: plan' =>
      let new_match := link_text (ref_alt r) (plan_new_name p) in
      rewrite_loop (PyStr.replace (ref_full r) new_match new_markdown) refs' plan'
  | _, _ => new_markdown
  end.

Definition rewrite_markdown (markdown_content : string)
    (image_refs : list image_ref) (plan : list plan_entry) : string :=
  rewrite_loop markdown_content image_refs plan.

(** ** The transcoder *)

(** An opened image, as far as the program looks at it. *)
Record image : Type := { img_mode : string; img_width : Z; img_height : Z }.

(** The colour mode after normalisation. *)
Definition normalized_mode (mode : string) : string :=
  if String.eqb mode "P" then "RGBA"
  else if negb (String.eqb mode "RGB" || String.eqb mode "RGBA") then
    if PyStr.contains "A" mode || String.eqb mode "LA" then "RGBA" else "RGB"
  else mode.

(** [int(a * (max_width / b))] *)
Definition scaled (a max_width b : Z) : pyres Z :=
  try ratio <- PyNum.truediv max_width b in
  try product <- PyNum.int_mul_float a ratio in
  PyNum.int_of_float product.

(** The size handed to [img.resize], if the image is resized at all. *)
Definition resize_target (max_width width height : Z) : pyres (option (Z * Z)) :=
  if (Z.max width height >? max_width)%Z then
    if (width >? height)%Z then
      try new_height <- scaled height max_width width in
      Ok (Some (max_width, new_height))
    else
      try new_width <- scaled width max_width height in
      Ok (Some (new_width, max_width))
  else Ok None.

(** The dimensions of the image that is encoded. *)
Definition output_dimensions (max_width width height : Z) : pyres (Z * Z) :=
  try target <- resize_target max_width width height in
  Ok (match target with
      | Some size => size
      | None => (width, height)
      end).

(** [int((1 - new_size / orig_size) * 100) if orig_size > 0 else 0] *)
Definition compression_percent (orig_size new_size : Z) : pyres Z :=
  if (orig_size >? 0)%Z then
    try ratio <- PyNum.truediv new_size orig_size in
    try saved <- PyNum.int_sub_float 1 ratio in
    try percent <- PyNum.float_mul_int saved 100 in
    PyNum.int_of_float percent
  else Ok 0%Z.

Definition action_of (file_type : option file_type) : pyres string :=
  match file_type with
  | None => Raise AttributeError
  | Some t =>
      Ok (match t with
          | Jpeg => "JPEG → WebP"
          | Heic => "HEIC → WebP"
          | Tiff => "TIFF → WebP"
          | Png => "PNG → WebP"
          | Webp => "WebP оптимизирован"
          | Video => PyStr.upper (file_type_str t) ++ " → WebP"
          end)
  end.

(** The outcome of one image. *)
Inductive result : Type :=
  | Success (input output action : string) (original_size new_size compression : Z)
  | Failure (input error : string).

Definition succeeded (r : result) : bool :=
  match r with
  | Success _ _ _ _ _ _ => true
  | Failure _ _ => false
  end.

(** What a run does to the world, in order. *)
Inductive event : Type :=
  | Print (m : message)
  | MakeDirs (dir : string)
  | ProcessImage (source output_dir new_name : string)
  | SaveWebp (output_dir new_name : string) (size : Z * Z) (quality : Z)
  | WriteText (dir name content : string)
  | CopyFile (from_dir name to_dir : string).

Definition is_write (e : event) : bool :=
  match e with
  | Print _ | ProcessImage _ _ _ => false
  | MakeDirs _ | SaveWebp _ _ _ _ | WriteText _ _ _ | CopyFile _ _ _ => true
  end.

Local Open Scope list_scope.

(** The image library and the file system are the environment of a run. *)
Section Run.

(** [input_path.stat().st_size] of an attachment. *)
Variable stat_size : string -> pyres Z.
(** [Image.open] on an attachment. *)
Variable image_open : string -> pyres image.
(** [img.save(output_path, 'WEBP', quality, method=6)] followed by
    [output_path.stat().st_size]. *)
Variable image_save : image -> string -> Z -> pyres Z.
(** [output_file.exists()] when publishing, given what the run has done. *)
Variable output_exists : list event -> string -> bool.

Definition convert_to_webp (max_width quality : Z)
    (input output_dir new_name : string) : list event * pyres (Z * Z) :=
  match stat_size input with
  | Raise e => ([], Raise e)
  | Ok original_size =>
      match image_open input with
      | Raise e => ([], Raise e)
      | Ok img =>
          let mode := normalized_mode (img_mode img) in
          match output_dimensions max_width (img_width img) (img_height img) with
          | Raise e => ([], Raise e)
          | Ok (w, h) =>
              let img := {| img_mode := mode; img_width := w; img_height := h |} in
              ([SaveWebp output_dir new_name (w, h) quality],
               try new_size <- image_save img new_name quality in
               Ok (original_size, new_size))
          end
      end
  end.

(** [try: ... except Exception as e: ...] around the whole body. *)
Definition process_image (max_width quality : Z)
    (input output_dir new_name : string) (file_type : option file_type)
    : list event * result :=
  let '(evs, converted) := convert_to_webp max_width quality input output_dir new_name in
  let body :=
    try sizes <- converted in
    try action <- action_of file_type in
    try compression <- compression_percent (fst sizes) (snd sizes) in
    Ok (Success input new_name action (fst sizes) (snd sizes) compression) in
  (evs, match body with
        | Ok r => r
        | Raise e => Failure input (str_exn e)
        end).

Record exec_state : Type := {
  results : list result;
  total_original_size : Z;
  total_new_size : Z;
  exec_log : list event
}.

Definition exec_step (max_width quality : Z) (verbose : bool)
    (output_dir : string) (st : exec_state) (p : plan_entry) : exec_state :=
  let file_path := plan_source p in
  let new_name := plan_new_name p in
  let file_type := get_file_type file_path in
  let '(evs, r) := process_image max_width quality file_path output_dir new_name file_type in
  let log : list event :=
    exec_log st
    ++ List.map Print (when_verbose verbose (MsgProcessingFile file_path new_name))
    ++ [ProcessImage file_path output_dir new_name] ++ evs in
  match r with
  | Success _ _ _ original_size new_size compression =>
      {| results := results st ++ [r];
         total_original_size := total_original_size st + original_size;
         total_new_size := total_new_size st + new_size;
         exec_log :=
           log ++ [Print (MsgImageDone new_name original_size new_size compression)] |}
  | Failure _ error =>
      {| results := results st ++ [r];
         total_original_size := total_original_size st;
         total_new_size := total_new_size st;
         exec_log := log ++ [Print (MsgImageFailed file_path error)] |}
  end.

Definition execute (max_width quality : Z) (verbose : bool)
    (output_dir : string) (plan : list plan_entry) (log : list event) : exec_state :=
  List.fold_left (exec_step max_width quality verbose output_dir) plan
    {| results := []; total_original_size := 0; total_new_size := 0;
       exec_log := log |}.

(** *** The post directory *)

Record post_dir : Type := {
  source_path : string;
  source_exists : bool;
  source_is_dir : bool;
  (** the content of [index.md], when it exists *)
  index_md : option string;
  (** [source_dir.glob('*.md')], names and contents *)
  md_files : list (string * string);
  (** the listing of [Attachments], when it exists *)
  attachments : option directory
}.

Definition find_markdown_file (s : post_dir) : option (string * string) :=
  match index_md s with
  | Some content => Some ("index.md", content)
  | None =>
      match md_files s with
      | f :: _ => Some f
      | [] => None
      end
  end.

Definition validate_source_directory (s : post_dir) : bool * string :=
  if negb (source_exists s)
  then (false, String.append "Директория не существует: " (source_path s))
  else if negb (source_is_dir s)
  then (false, String.append "Это не директория: " (source_path s))
  else match find_markdown_file s with
       | None => (false, String.append "Не найден markdown файл в " (source_path s))
       | Some _ =>
           match attachments s with
           | None => (false, String.append "Не найдена папка Attachments в " (source_path s))
           | Some _ => (true, "OK")
           end
       end.

Definition summary_lines (missing unused : list string) : list event :=
  match missing, unused with
  | [], [] => []
  | _, _ => [Print (MsgSummary (List.length missing) (List.length unused))]
  end.

Definition publish (hugo_path : option string) (output_dir markdown_name : string)
    (plan : list plan_entry) (log : list event) : list event :=
  match hugo_path with
  | None => log
  | Some hugo =>
      let log : list event :=
        log ++ [Print (MsgCopying hugo); MakeDirs hugo;
                CopyFile output_dir markdown_name hugo] in
      let copies : list event :=
        List.fold_left
          (fun acc p =>
             if output_exists (log ++ acc)%list (plan_new_name p)
             then acc ++ [CopyFile output_dir (plan_new_name p) hugo]
             else acc)
          plan [] in
      log ++ copies ++ [Print (MsgCopied hugo)]
  end.

Definition process_post (source_dir : post_dir) (output_dir : string)
    (hugo_path : option string) (max_width quality : Z)
    (dry_run no_rename verbose stats : bool) : bool * list event :=
  let '(is_valid, message) := validate_source_directory source_dir in
  if negb is_valid then (false, [Print MsgValidating; Print (MsgInvalid message)])
  else
    match find_markdown_file source_dir, attachments source_dir with
    | Some (markdown_name, markdown_content), Some attachments_dir =>
        let image_refs := extract_image_references markdown_content in
        let st := build_plan attachments_dir no_rename verbose image_refs in
        let unused := unused_files attachments_dir st in
        let log : list event :=
          [Print MsgValidating; Print MsgValid; Print (MsgMarkdownFound markdown_name);
           Print (MsgRefCount (List.length image_refs))]
          ++ List.map Print (plan_log st)
          ++ summary_lines (missing_files st) unused in
        if dry_run then
          (true,
           (log ++ [Print MsgDryRunHeader]
            ++ List.map (fun p => Print (MsgDryRunRow (plan_source p) (plan_new_name p)))
                 (files_to_process st)
            ++ [Print (MsgDryRunFooter (List.length (files_to_process st)) output_dir
                         quality max_width hugo_path)])%list)
        else
          let log : list event :=
            log ++ [MakeDirs output_dir; Print (MsgOutputDir output_dir);
                    Print MsgProcessing] in
          let ex := execute max_width quality verbose output_dir (files_to_process st) log in
          let new_markdown :=
            rewrite_markdown markdown_content image_refs (files_to_process st) in
          let log : list event :=
            exec_log ex ++ [Print MsgUpdatingMarkdown;
                            WriteText output_dir markdown_name new_markdown;
                            Print (MsgMarkdownSaved markdown_name)] in
          let log := publish hugo_path output_dir markdown_name (files_to_process st) log in
          let log : list event :=
            if stats then
              log ++ [Print (MsgStatistics
                               (List.length (List.filter succeeded (results ex)))
                               (List.length (results ex))
                               (total_original_size ex) (total_new_size ex)
                               (missing_files st) unused (skipped_videos st))]
            else log in
          (true, log)
    | _, _ => (false, [Print MsgValidating; Print (MsgInvalid message)])
    end.

End Run.

(** * The vocabulary of the statements *)

(** ** Links in a text *)

(** A well-formed image link: no closing bracket in the alt text, a
    non-empty path without closing parenthesis. *)
Definition well_formed_link (alt path : string) : Prop :=
  PyStr.lacks "]" alt = true /\ path <> "" /\ PyStr.lacks ")" path = true.

(** A well-formed link starts the text. *)
Definition link_at (s : string) : Prop :=
  exists alt path rest,
    s = (link_text alt path ++ rest)%string /\ well_formed_link alt path.

(** [scan s refs]: reading [s] from left to right, [refs] are the links
    met, each search resuming behind the link just read; no link starts
    in the text skipped before a link, nor in the text after the last. *)
Inductive scan : string -> list image_ref -> Prop :=
  | scan_done (s : string) :
      (forall i, ~ link_at (PyStr.drop i s)) -> scan s []
  | scan_link (pre alt path rest : string) (refs : list image_ref) :
      (forall i, (i < String.length pre)%nat ->
                 ~ link_at (PyStr.drop i (pre ++ link_text alt path ++ rest)%string)) ->
      well_formed_link alt path ->
      scan rest refs ->
      scan (pre ++ link_text alt path ++ rest)%string
        ((link_text alt path, alt, path) :: refs).

(** ** Planned references *)

(** The source file a reference is planned with: the resolved file, when
    it is an image of a recognised type. *)
Definition resolve_image (d : directory) (filename : string) : option string :=
  match find_file_by_basename d filename with
  | Some file_path =>
      match get_file_type file_path with
      | Some Video | None => None
      | Some _ => Some file_path
      end
  | None => None
  end.

(** The plan entries of a reference list, reference by reference. *)
Definition planned_entry (d : directory) (no_rename : bool) (idx : nat)
    (r : image_ref) : list plan_entry :=
  let filename := referenced_filename (ref_path r) in
  match resolve_image d filename with
  | Some file_path => [(file_path, new_filename no_rename filename idx, idx)]
  | None => []
  end.

Fixpoint planned_entries (d : directory) (no_rename : bool) (idx : nat)
    (refs : list image_ref) : list plan_entry :=
  match refs with
  | [] => []
  | r :: refs' => planned_entry d no_rename idx r ++ planned_entries d no_rename (S idx) refs'
  end.

(** The decimal digits of [n]. *)
Definition decimal (n : nat) : string := NilEmpty.string_of_uint (Nat.to_uint n).

(** The default name of the reference at position [idx]. *)
Definition img_name (idx : nat) : string :=
  String.append "img_" (String.append (PyStr.format_02d idx) ".webp").

(** ** Logs *)

(** The rows a dry run prints and the transcodes a run performs, as
    (source file, output name) pairs in order. *)
Definition dry_run_rows (log : list event) : list (string * string) :=
  List.flat_map (fun e => match e with
                          | Print (MsgDryRunRow source new_name) => [(source, new_name)]
                          | _ => []
                          end) log.

Definition transcode_calls (log : list event) : list (string * string) :=
  List.flat_map (fun e => match e with
                          | ProcessImage source _ new_name => [(source, new_name)]
                          | _ => []
                          end) log.

Definition plan_mapping (plan : list plan_entry) : list (string * string) :=
  List.map (fun p => (plan_source p, plan_new_name p)) plan.

(** The source directory passes validation with this markdown file and
    this attachments listing. *)
Definition valid_post (s : post_dir) (markdown_name markdown_content : string)
    (d : directory) : Prop :=
  source_exists s = true /\ source_is_dir s = true /\
  find_markdown_file s = Some (markdown_name, markdown_content) /\
  attachments s = Some d.

(** ** Rounding, as opposed to truncation *)


(** The position of the rational [N / D] between [m] and [m + 1], as
    the round and sticky bits of the rounding algorithm record it. *)
Definition loc_ok (N D m : Z) (r s : bool) : Prop :=
  match r, s with
  | false, false => N = (m * D)%Z
  | false, true => (m * D < N /\ 2 * N < (2 * m + 1) * D)%Z
  | true, false => (2 * N = (2 * m + 1) * D)%Z
  | true, true => ((2 * m + 1) * D < 2 * N /\ N < (m + 1) * D)%Z
  end.

Definition located (N D : Z) (mrs : shr_record) : Prop :=
  (0 <= shr_m mrs)%Z /\ loc_ok N D (shr_m mrs) (shr_r mrs) (shr_s mrs).

(** The value of a float with mantissa [m] and exponent [e], in units
    of 2^-L. *)
Definition fval (L : Z) (m : positive) (e : Z) : Z := (Zpos m * 2 ^ (e + L))%Z.

(** [r] is the quotient [N / D] truncated toward zero, or one closer to
    zero when the division is exact. *)
Definition truncated_toward_zero (N D r : Z) : Prop :=
  r = Z.quot N D \/ (Z.rem N D = 0%Z /\ r = (Z.quot N D - Z.sgn N)%Z).

(** The nearest integer to [n / d], for positive [d]. *)
Definition nearest (n d : Z) : Z := ((2 * n + d) / (2 * d))%Z.


(** The percentage with [round] in place of [int]. *)
Definition claimed_compression (orig_size new_size : Z) : pyres Z :=
  if (orig_size >? 0)%Z then
    try ratio <- PyNum.truediv new_size orig_size in
    try saved <- PyNum.int_sub_float 1 ratio in
    try percent <- PyNum.float_mul_int saved 100 in
    PyNum.round_float percent
  else Ok 0%Z.

(** ** Sample posts *)

Definition photo_jpeg : dir_entry :=
  {| entry_name := "photo.jpeg"; entry_is_file := true |}.

Definition two_refs : list image_ref :=
  [("![a](IMG_4711.JPG)", "a", "IMG_4711.JPG");
   ("![b](Attachments/photo.jpg)", "b", "Attachments/photo.jpg")].

Definition two_files : directory :=
  [ {| entry_name := "photo.jpeg"; entry_is_file := true |};
    {| entry_name := "IMG_4711.JPG"; entry_is_file := true |} ].

Definition gone_refs : list image_ref :=
  [("![a](gone.png)", "a", "gone.png"); ("![b](photo.jpg)", "b", "photo.jpg")].

Definition demo_listing : directory :=
  [ {| entry_name := "x.png"; entry_is_file := true |};
    {| entry_name := "y.jpg"; entry_is_file := true |} ].

(** A post with two images, the first of which cannot be decoded. *)
Definition demo_post : post_dir :=
  {| source_path := "post"; source_exists := true; source_is_dir := true;
     index_md := Some "![a](x.png) ![b](y.jpg)"; md_files := [];
     attachments := Some demo_listing |}.

Definition demo_stat (name : string) : pyres Z := Ok 2048%Z.

Definition demo_open (name : string) : pyres image :=
  if String.eqb name "x.png" then Raise (ImageError "cannot identify image file")
  else Ok {| img_mode := "RGB"; img_width := 3000; img_height := 2000 |}.

Definition demo_save (img : image) (name : string) (quality : Z) : pyres Z := Ok 1024%Z.

Definition demo_exists (log : list event) (name : string) : bool := true.

Definition demo_entry : plan_entry := ("x.png", "img_01.webp", 1%nat).

(** A post whose first reference has no attachment. *)
Definition misaligned_markdown : string := "![a](missing.png) ![b](x.png)".

Definition misaligned_listing : directory :=
  [ {| entry_name := "x.png"; entry_is_file := true |} ].

Definition misaligned_post : post_dir :=
  {| source_path := "post"; source_exists := true; source_is_dir := true;
     index_md := Some misaligned_markdown; md_files := [];
     attachments := Some misaligned_listing |}.

(** A post that shows the same image twice. *)
Definition repeated_markdown : string := "![a](x.png) and ![a](x.png)".

(** * Properties *)

Local Open Scope string_scope.
Local Arguments String.append !_ _ / : simpl nomatch.

(** ** Strings *)

Section StringFacts.

Lemma append_nil_r (s : string) : s ++ "" = s.
Proof. induction s as [|c s IH]; simpl; [reflexivity | now rewrite IH]. Qed.

Lemma append_assoc (a b c : string) : (a ++ b) ++ c = a ++ (b ++ c).
Proof. induction a as [|x a IH]; simpl; [reflexivity | now rewrite IH]. Qed.

Lemma length_append (a b : string) :
  String.length (a ++ b) = (String.length a + String.length b)%nat.
Proof. induction a as [|x a IH]; simpl; [reflexivity | now rewrite IH]. Qed.

Lemma drop_append (a b : string) : PyStr.drop (String.length a) (a ++ b) = b.
Proof. induction a as [|x a IH]; simpl; [now destruct b | exact IH]. Qed.

Lemma drop_nil (n : nat) : PyStr.drop n "" = "".
Proof. now destruct n. Qed.

Lemma drop_append_lt (n : nat) (a b : string) :
  (n < String.length a)%nat ->
  exists c a', PyStr.drop n (a ++ b) = String c (a' ++ b) /\ PyStr.drop n a = String c a'.
Proof.
  revert a. induction n as [|n IH]; intros [|x a] Hlt; simpl in *; try lia.
  - now exists x, a.
  - apply IH. lia.
Qed.

Lemma lacks_append (c : ascii) (a b : string) :
  PyStr.lacks c (a ++ b) = PyStr.lacks c a && PyStr.lacks c b.
Proof.
  induction a as [|x a IH]; simpl; [reflexivity |].
  now rewrite IH, andb_assoc.
Qed.

Lemma lacks_drop (c : ascii) (n : nat) (s : string) :
  PyStr.lacks c s = true -> PyStr.lacks c (PyStr.drop n s) = true.
Proof.
  revert s. induction n as [|n IH]; intros [|x s] H; simpl in *; auto.
  apply andb_true_iff in H as [_ H]. now apply IH.
Qed.

Lemma startswith_append (p s : string) : PyStr.startswith p (p ++ s) = true.
Proof.
  induction p as [|x p IH]; simpl; [reflexivity |].
  now rewrite Ascii.eqb_refl.
Qed.

Lemma startswith_inv (p s : string) :
  PyStr.startswith p s = true -> exists r, s = p ++ r.
Proof.
  revert s. induction p as [|x p IH]; intros s H; simpl in *.
  - now exists s.
  - destruct s as [|y s]; [discriminate |].
    apply andb_true_iff in H as [Hxy H].
    apply Ascii.eqb_eq in Hxy as ->.
    destruct (IH _ H) as [r ->]. now exists r.
Qed.

(** A prefix of a string free of [c] is free of [c]. *)
Lemma startswith_lacks (c : ascii) (p s : string) :
  PyStr.startswith p s = true -> PyStr.lacks c s = true -> PyStr.lacks c p = true.
Proof.
  intros Hp Hs. destruct (startswith_inv _ _ Hp) as [r ->].
  rewrite lacks_append in Hs. now apply andb_true_iff in Hs as [-> _].
Qed.

Lemma span_until_sound (c : ascii) (s a b : string) :
  PyStr.span_until c s = (a, b) ->
  s = a ++ b /\ PyStr.lacks c a = true /\ (b = "" \/ exists r, b = String c r).
Proof.
  revert a b. induction s as [|x s IH]; intros a b H; simpl in H.
  - injection H as <- <-. now auto.
  - destruct (Ascii.eqb x c) eqn:E.
    + injection H as <- <-. apply Ascii.eqb_eq in E as ->. simpl. eauto.
    + destruct (PyStr.span_until c s) as [a' b'] eqn:Es.
      injection H as <- <-.
      destruct (IH _ _ eq_refl) as (-> & Ha & Hb).
      simpl. rewrite E, Ha. now auto.
Qed.

Lemma span_until_stop (c : ascii) (a r : string) :
  PyStr.lacks c a = true -> PyStr.span_until c (a ++ String c r) = (a, String c r).
Proof.
  induction a as [|x a IH]; simpl; intros H.
  - now rewrite Ascii.eqb_refl.
  - apply andb_true_iff in H as [Hx Ha].
    apply negb_true_iff in Hx. now rewrite Hx, (IH Ha).
Qed.

Lemma split_lacks (sep : ascii) (s : string) :
  List.Forall (fun c => PyStr.lacks sep c = true) (PyStr.split sep s).
Proof.
  induction s as [|x s IH]; simpl.
  - now repeat constructor.
  - destruct (Ascii.eqb x sep) eqn:E.
    + now constructor.
    + destruct (PyStr.split sep s) as [|h r].
      * repeat constructor. simpl. now rewrite E.
      * inversion IH as [|? ? Hh Hr]; subst.
        constructor; [simpl; now rewrite E, Hh | exact Hr].
Qed.

End StringFacts.

(** ** Paths *)

Lemma last_Forall {A : Type} (P : A -> Prop) (l : list A) (d : A) :
  P d -> List.Forall P l -> P (List.last l d).
Proof.
  intros Hd H. induction H as [|x l Hx _ IH]; [exact Hd |].
  destruct l; [exact Hx | exact IH].
Qed.

Lemma name_no_separator (p : string) : PyStr.lacks "/" (PyPath.name p) = true.
Proof.
  unfold PyPath.name, PyPath.parts.
  apply last_Forall with (P := fun c => PyStr.lacks "/" c = true); [reflexivity |].
  apply List.Forall_forall. intros c Hc.
  apply List.filter_In in Hc as [Hc _].
  pose proof (split_lacks "/" p) as H.
  rewrite List.Forall_forall in H. now apply H.
Qed.

(** C10: the name handed to the resolver is the final component of the
    referenced path: a final component holds no separator, so the test for
    the [Attachments/] prefix fails for every path and the stripping
    branch is never taken. *)
Theorem attachments_prefix_branch_unreachable (path : string) :
  PyStr.lacks "/" (PyPath.name path) = true /\
  PyStr.startswith "Attachments/" (PyPath.name path) = false /\
  referenced_filename path = PyPath.name path.
Proof.
  pose proof (name_no_separator path) as Hname.
  assert (Hpre : PyStr.startswith "Attachments/" (PyPath.name path) = false).
  { destruct (PyStr.startswith "Attachments/" (PyPath.name path)) eqn:E; [|reflexivity].
    pose proof (startswith_lacks "/" _ _ E Hname) as H. discriminate H. }
  repeat split; [exact Hname | exact Hpre |].
  unfold referenced_filename. now rewrite Hpre.
Qed.

(** ** The extractor *)

Lemma link_text_length (alt path : string) :
  String.length (link_text alt path) = (5 + String.length alt + String.length path)%nat.
Proof.
  unfold link_text. simpl. rewrite !length_append. simpl.
  rewrite length_append. simpl. lia.
Qed.

Lemma match_here_complete (alt path rest : string) :
  well_formed_link alt path ->
  match_here (link_text alt path ++ rest)
  = Some (alt, path, String.length (link_text alt path)).
Proof.
  intros (Halt & Hne & Hpath).
  rewrite link_text_length. unfold link_text. simpl.
  rewrite !append_assoc. simpl.
  rewrite (span_until_stop "]" alt _ Halt).
  rewrite !append_assoc. simpl.
  rewrite (span_until_stop ")" path _ Hpath).
  destruct path; [now elim Hne | reflexivity].
Qed.

Lemma match_here_sound (s alt path : string) (len : nat) :
  match_here s = Some (alt, path, len) ->
  exists rest, s = link_text alt path ++ rest /\ well_formed_link alt path /\
               len = String.length (link_text alt path).
Proof.
  unfold match_here. intros H.
  destruct s as [|c0 [|c1 r0]]; try discriminate.
  { destruct c0 as [[] [] [] [] [] [] [] []]; discriminate. }
  destruct (Ascii.eqb_spec c0 "!") as [-> | Hc0]; cycle 1.
  { destruct c0 as [[] [] [] [] [] [] [] []]; try discriminate. now elim Hc0. }
  destruct (Ascii.eqb_spec c1 "[") as [-> | Hc1]; cycle 1.
  { destruct c1 as [[] [] [] [] [] [] [] []]; try discriminate. now elim Hc1. }
  destruct (PyStr.span_until "]" r0) as [a r1] eqn:E1.
  destruct (span_until_sound _ _ _ _ E1) as (-> & Ha & _).
  destruct r1 as [|d0 [|d1 r2]]; try discriminate.
  { destruct d0 as [[] [] [] [] [] [] [] []]; discriminate. }
  destruct (Ascii.eqb_spec d0 "]") as [-> | Hd0]; cycle 1.
  { destruct d0 as [[] [] [] [] [] [] [] []]; try discriminate. now elim Hd0. }
  destruct (Ascii.eqb_spec d1 "(") as [-> | Hd1]; cycle 1.
  { destruct d1 as [[] [] [] [] [] [] [] []]; try discriminate. now elim Hd1. }
  destruct (PyStr.span_until ")" r2) as [p r3] eqn:E2.
  destruct (span_until_sound _ _ _ _ E2) as (-> & Hp & _).
  destruct p as [|p0 p]; [discriminate |].
  destruct r3 as [|e0 r3]; [discriminate |].
  destruct (Ascii.eqb_spec e0 ")") as [-> | He0]; cycle 1.
  { destruct e0 as [[] [] [] [] [] [] [] []]; try discriminate. now elim He0. }
  injection H as <- <- <-.
  exists r3. split; [| split].
  - unfold link_text. simpl. rewrite !append_assoc. simpl.
    now rewrite !append_assoc.
  - repeat split; [exact Ha | discriminate | exact Hp].
  - now rewrite link_text_length.
Qed.

Lemma match_here_none (s : string) : match_here s = None -> ~ link_at s.
Proof.
  intros H (alt & path & rest & -> & Hwf).
  rewrite (match_here_complete _ _ _ Hwf) in H. discriminate.
Qed.

Lemma findall_from_drop (s : string) (k : nat) :
  findall_from s k = findall (PyStr.drop k s).
Proof.
  revert k. induction s as [|c s IH]; intros [|k]; try reflexivity.
  simpl. apply IH.
Qed.

Lemma findall_cons (c : ascii) (s : string) :
  findall (String c s)
  = match match_here (String c s) with
    | Some (alt, path, len) => (alt, path) :: findall (PyStr.drop len (String c s))
    | None => findall s
    end.
Proof.
  unfold findall.
  change (findall_from (String c s) 0)
    with (match match_here (String c s) with
          | Some (alt, path, len) => (alt, path) :: findall_from s (len - 1)
          | None => findall_from s 0
          end).
  destruct (match_here (String c s)) as [[[alt path] len]|] eqn:E; [| reflexivity].
  rewrite findall_from_drop.
  destruct (match_here_sound _ _ _ _ E) as (rest & _ & _ & ->).
  rewrite link_text_length. reflexivity.
Qed.

Lemma no_link_in_nil (i : nat) : ~ link_at (PyStr.drop i "").
Proof.
  rewrite drop_nil. intros (alt & path & rest & H & _). discriminate H.
Qed.

(** A character that starts no link is absorbed by the skipped text. *)
Lemma scan_skip (c : ascii) (s : string) (refs : list image_ref) :
  ~ link_at (String c s) -> scan s refs -> scan (String c s) refs.
Proof.
  intros Hc H. destruct H as [s Hnone | pre alt path rest refs Hpre Hwf Hrest].
  - apply scan_done. intros [|i]; [exact Hc | apply Hnone].
  - change (String c (pre ++ link_text alt path ++ rest))
      with (String c pre ++ link_text alt path ++ rest).
    apply scan_link; [| exact Hwf | exact Hrest].
    intros [|i] Hi; [exact Hc |]. simpl. apply Hpre. simpl in Hi. lia.
Qed.

Lemma extract_scan_bounded (n : nat) (s : string) :
  (String.length s <= n)%nat -> scan s (extract_image_references s).
Proof.
  revert s. induction n as [|n IH]; intros s Hlen.
  - destruct s; [| simpl in Hlen; lia]. apply scan_done, no_link_in_nil.
  - destruct s as [|c s]; [apply scan_done, no_link_in_nil |].
    unfold extract_image_references. rewrite findall_cons.
    destruct (match_here (String c s)) as [[[alt path] len]|] eqn:E.
    + destruct (match_here_sound _ _ _ _ E) as (rest & Hs & Hwf & ->).
      rewrite Hs, drop_append. simpl List.map.
      apply (scan_link "" alt path rest); [simpl; lia | exact Hwf |].
      apply IH.
      assert (String.length (String c s) = String.length (link_text alt path ++ rest))
        as Hl by now rewrite Hs.
      rewrite length_append, link_text_length in Hl. simpl in Hl, Hlen. lia.
    + apply scan_skip; [now apply match_here_none |].
      apply IH. simpl in Hlen. lia.
Qed.

Lemma findall_at_link (alt path rest : string) :
  well_formed_link alt path ->
  findall (link_text alt path ++ rest) = (alt, path) :: findall rest.
Proof.
  intros Hwf.
  pose proof (findall_cons "!" (String "[" ((alt ++ "](" ++ path ++ ")") ++ rest))) as H.
  change (String "!" (String "[" ((alt ++ "](" ++ path ++ ")") ++ rest)))
    with (link_text alt path ++ rest) in H.
  now rewrite (match_here_complete _ _ _ Hwf), drop_append in H.
Qed.

Lemma findall_no_link (s : string) :
  (forall i, ~ link_at (PyStr.drop i s)) -> findall s = [].
Proof.
  induction s as [|c s IH]; intros Hnone; [reflexivity |].
  rewrite findall_cons.
  destruct (match_here (String c s)) as [[[alt path] len]|] eqn:E.
  - destruct (match_here_sound _ _ _ _ E) as (rest & Hs & Hwf & _).
    elim (Hnone O). now exists alt, path, rest.
  - apply IH. intros i. apply (Hnone (S i)).
Qed.

Lemma findall_skip (pre s : string) :
  (forall i, (i < String.length pre)%nat -> ~ link_at (PyStr.drop i (pre ++ s))) ->
  findall (pre ++ s) = findall s.
Proof.
  induction pre as [|c pre IH]; intros Hnone; [reflexivity |].
  simpl. rewrite findall_cons.
  destruct (match_here (String c (pre ++ s))) as [[[alt path] len]|] eqn:E.
  - destruct (match_here_sound _ _ _ _ E) as (rest & Hs & Hwf & _).
    elim (Hnone O); [simpl; lia |]. now exists alt, path, rest.
  - apply IH. intros i Hi. apply (Hnone (S i)). simpl. lia.
Qed.

Lemma scan_functional (s : string) (refs : list image_ref) :
  scan s refs -> refs = extract_image_references s.
Proof.
  unfold extract_image_references.
  induction 1 as [s Hnone | pre alt path rest refs Hpre Hwf _ IH].
  - now rewrite findall_no_link.
  - rewrite (findall_skip _ _ Hpre), (findall_at_link _ _ _ Hwf). simpl.
    now rewrite IH.
Qed.

(** C4: the extractor returns the well-formed links of the text in
    document order, one entry per link met when reading from left to
    right and resuming behind each link, with the alt text and the path
    verbatim and the full match equal to the matched text; a repeated link
    is an entry each time it is met.  The list of entries is the only one
    that reads the text this way. *)
Theorem extract_image_references_scan (markdown_content : string)
    (refs : list image_ref) :
  scan markdown_content refs <-> refs = extract_image_references markdown_content.
Proof.
  split; [apply scan_functional | intros ->].
  now apply (extract_scan_bounded (String.length markdown_content)).
Qed.

(** ** The resolver *)

Lemma find_first {A : Type} (f : A -> bool) (l : list A) :
  (exists x, List.In x l /\ f x = true) ->
  exists x, List.find f l = Some x /\ List.In x l /\ f x = true.
Proof.
  intros (x & Hin & Hx).
  destruct (List.find f l) as [y|] eqn:E.
  - exists y. destruct (List.find_some _ _ E). auto.
  - rewrite (List.find_none _ _ E x Hin) in Hx. discriminate.
Qed.

Lemma find_absent {A : Type} (f : A -> bool) (l : list A) :
  (forall x, List.In x l -> f x = false) -> List.find f l = None.
Proof.
  intros H. destruct (List.find f l) as [y|] eqn:E; [| reflexivity].
  destruct (List.find_some _ _ E) as [Hin Hy]. rewrite (H _ Hin) in Hy. discriminate.
Qed.

(** C5: for a requested name that is a final path component, the
    resolver returns the entry of that exact name when it exists;
    otherwise a file of the directory with the requested stem when there
    is one; otherwise a file whose name contains the requested stem when
    there is one; otherwise nothing.  A later tier is only consulted when
    the earlier ones found nothing; with [photo.jpeg] on disk a reference
    to [photo.jpg] resolves to [photo.jpeg]. *)
Theorem find_file_by_basename_tiers (d : directory) (filename : string) :
  PyPath.name filename = filename ->
  let basename := PyPath.stem filename in
  (path_exists d filename = true ->
   find_file_by_basename d filename = Some (joined_name filename)) /\
  (path_exists d filename = false ->
   (exists file, List.In file d /\ stem_match basename file = true) ->
   exists file, find_file_by_basename d filename = Some (entry_name file) /\
                List.In file d /\ entry_is_file file = true /\
                PyPath.stem_of_name (entry_name file) = basename) /\
  (path_exists d filename = false ->
   (forall file, List.In file d -> stem_match basename file = false) ->
   (exists file, List.In file d /\ substring_match basename file = true) ->
   exists file, find_file_by_basename d filename = Some (entry_name file) /\
                List.In file d /\ entry_is_file file = true /\
                PyStr.contains basename (entry_name file) = true) /\
  (path_exists d filename = false ->
   (forall file, List.In file d -> stem_match basename file = false) ->
   (forall file, List.In file d -> substring_match basename file = false) ->
   find_file_by_basename d filename = None) /\
  find_file_by_basename [photo_jpeg] "photo.jpg" = Some "photo.jpeg".
Proof.
  intros _ basename. unfold find_file_by_basename. fold basename.
  repeat split.
  - now intros ->.
  - intros -> Hex. destruct (find_first _ _ Hex) as (file & -> & Hin & Hm).
    exists file. apply andb_true_iff in Hm as [Hf Hs].
    apply String.eqb_eq in Hs. auto.
  - intros -> Hno Hex. rewrite (find_absent _ _ Hno).
    destruct (find_first _ _ Hex) as (file & -> & Hin & Hm).
    exists file. apply andb_true_iff in Hm as [Hf Hs]. auto.
  - intros -> Hno1 Hno2. now rewrite (find_absent _ _ Hno1), (find_absent _ _ Hno2).
Qed.

Lemma find_file_by_basename_tiers_witness :
  PyPath.name "photo.jpg" = "photo.jpg" /\
  exists file, find_file_by_basename [photo_jpeg] "photo.jpg" = Some (entry_name file) /\
               List.In file [photo_jpeg] /\ entry_is_file file = true /\
               PyPath.stem_of_name (entry_name file) = PyPath.stem "photo.jpg".
Proof.
  split; [reflexivity |].
  apply (find_file_by_basename_tiers [photo_jpeg] "photo.jpg" eq_refl).
  - reflexivity.
  - exists photo_jpeg. split; [now left | reflexivity].
Defined.

(** ** The plan *)

Local Open Scope list_scope.

Section PlanFacts.

Variable d : directory.
Variables no_rename verbose : bool.

Lemma plan_step_files (st : plan_state) (idx : nat) (r : image_ref) :
  files_to_process (plan_step d no_rename verbose st idx r)
  = files_to_process st ++ planned_entry d no_rename idx r.
Proof.
  unfold plan_step, planned_entry, resolve_image.
  destruct (find_file_by_basename d _) as [fp|]; simpl;
    [| now rewrite List.app_nil_r].
  destruct (get_file_type fp) as [[]|]; simpl; now rewrite ?List.app_nil_r.
Qed.

Lemma plan_step_processed (st : plan_state) (idx : nat) (r : image_ref) :
  processed_files (plan_step d no_rename verbose st idx r)
  = processed_files st ∪
    list_to_set (List.map plan_source (planned_entry d no_rename idx r)).
Proof.
  unfold plan_step, planned_entry, resolve_image.
  destruct (find_file_by_basename d _) as [fp|]; simpl; [| set_solver].
  destruct (get_file_type fp) as [[]|]; simpl; set_solver.
Qed.

Lemma plan_step_missing (st : plan_state) (idx : nat) (r : image_ref) (f : string) :
  List.In f (missing_files (plan_step d no_rename verbose st idx r)) ->
  List.In f (missing_files st) \/ find_file_by_basename d f = None.
Proof.
  unfold plan_step.
  destruct (find_file_by_basename d (referenced_filename (ref_path r))) as [fp|] eqn:E;
    simpl.
  - destruct (get_file_type fp) as [[]|]; simpl; auto.
  - intros H. apply List.in_app_or in H as [H | [<- | []]]; auto.
Qed.

Lemma plan_loop_files (refs : list image_ref) (st : plan_state) (idx : nat) :
  files_to_process (plan_loop d no_rename verbose st idx refs)
  = files_to_process st ++ planned_entries d no_rename idx refs.
Proof.
  revert st idx. induction refs as [|r refs IH]; intros st idx; simpl.
  - now rewrite List.app_nil_r.
  - now rewrite IH, plan_step_files, List.app_assoc.
Qed.

Lemma plan_loop_processed (refs : list image_ref) (st : plan_state) (idx : nat) :
  processed_files (plan_loop d no_rename verbose st idx refs)
  = processed_files st ∪
    list_to_set (List.map plan_source (planned_entries d no_rename idx refs)).
Proof.
  revert st idx. induction refs as [|r refs IH]; intros st idx; simpl.
  - set_solver.
  - rewrite IH, plan_step_processed, List.map_app, list_to_set_app_L. set_solver.
Qed.

Lemma plan_loop_missing (refs : list image_ref) (st : plan_state) (idx : nat)
    (f : string) :
  List.In f (missing_files (plan_loop d no_rename verbose st idx refs)) ->
  List.In f (missing_files st) \/ find_file_by_basename d f = None.
Proof.
  revert st idx. induction refs as [|r refs IH]; intros st idx; simpl; [auto |].
  intros H. apply IH in H as [H | H]; [| auto].
  now apply plan_step_missing in H.
Qed.

(** Every planned entry stems from the reference at its index. *)
Lemma planned_entries_spec (refs : list image_ref) (idx : nat) (e : plan_entry) :
  List.In e (planned_entries d no_rename idx refs) ->
  exists r, List.nth_error refs (plan_index e - idx) = Some r /\
            (idx <= plan_index e)%nat /\
            resolve_image d (referenced_filename (ref_path r)) = Some (plan_source e) /\
            plan_new_name e
            = new_filename no_rename (referenced_filename (ref_path r)) (plan_index e).
Proof.
  revert idx. induction refs as [|r refs IH]; intros idx; simpl; [tauto |].
  intros H. apply List.in_app_or in H as [H | H].
  - unfold planned_entry in H.
    destruct (resolve_image d _) as [fp|] eqn:E; [| destruct H].
    destruct H as [<- | []]. exists r. cbn.
    rewrite Nat.sub_diag. repeat split; auto.
  - destruct (IH _ H) as (r' & Hnth & Hle & Hres & Hname).
    exists r'. replace (plan_index e - idx)%nat with (S (plan_index e - S idx)) by lia.
    repeat split; auto. lia.
Qed.

Lemma planned_entries_all (refs : list image_ref) (idx : nat) :
  (forall r, List.In r refs ->
             resolve_image d (referenced_filename (ref_path r)) <> None) ->
  List.map plan_index (planned_entries d no_rename idx refs)
  = List.seq idx (List.length refs) /\
  List.map plan_new_name (planned_entries d no_rename idx refs)
  = List.map (fun '(r, i) => new_filename no_rename (referenced_filename (ref_path r)) i)
      (List.combine refs (List.seq idx (List.length refs))).
Proof.
  revert idx. induction refs as [|r refs IH]; intros idx Hall; [now split |].
  simpl. unfold planned_entry.
  destruct (resolve_image d _) as [fp|] eqn:E.
  - destruct (IH (S idx)) as [IH1 IH2]; [intros r' Hr'; apply Hall; now right |].
    simpl. now rewrite IH1, IH2.
  - elim (Hall r); [now left | exact E].
Qed.

Lemma build_plan_files (refs : list image_ref) :
  files_to_process (build_plan d no_rename verbose refs)
  = planned_entries d no_rename 1 refs.
Proof. unfold build_plan. now rewrite plan_loop_files. Qed.

Lemma build_plan_processed (refs : list image_ref) :
  processed_files (build_plan d no_rename verbose refs)
  = list_to_set (List.map plan_source (planned_entries d no_rename 1 refs)).
Proof.
  unfold build_plan. rewrite plan_loop_processed.
  change (processed_files plan_init) with (∅ : gset string).
  apply set_eq. intros f. rewrite elem_of_union. set_solver.
Qed.

End PlanFacts.

Lemma decimal_short (n : nat) :
  (String.length (decimal n) < 2)%nat -> (n < 10)%nat.
Proof.
  unfold decimal. intros H.
  rewrite <- (DecimalNat.Unsigned.of_to n).
  destruct (Nat.to_uint n) as [|u|u|u|u|u|u|u|u|u|u]; [cbn; lia | ..];
    (destruct u; [cbn; lia | simpl in H; lia ..]).
Qed.

Lemma format_02d_spec (n : nat) :
  PyStr.format_02d n = if (n <? 10)%nat then String "0" (decimal n) else decimal n.
Proof.
  unfold PyStr.format_02d. fold (decimal n).
  destruct (Nat.ltb_spec n 10) as [Hlt | Hge].
  - do 10 (destruct n as [|n]; [reflexivity |]). lia.
  - destruct (Nat.ltb_spec (String.length (decimal n)) 2) as [Hs | Hs]; [| reflexivity].
    apply decimal_short in Hs. lia.
Qed.

(** C6: every plan entry comes from the reference at its 1-based index
    in the reference list, and its output name is [img_<index>.webp], the
    index in decimal and zero-padded to two digits, or with renaming
    disabled the stem of the referenced name followed by [.webp]; when
    every reference of the list is planned, the default names are
    [img_01.webp], [img_02.webp], ... in order, whatever the files are
    called. *)
Theorem plan_output_names (d : directory) (no_rename verbose : bool)
    (image_refs : list image_ref) :
  let plan := files_to_process (build_plan d no_rename verbose image_refs) in
  (forall e, List.In e plan ->
     exists r, List.nth_error image_refs (plan_index e - 1) = Some r /\
               (1 <= plan_index e <= List.length image_refs)%nat /\
               resolve_image d (referenced_filename (ref_path r)) = Some (plan_source e) /\
               plan_new_name e
               = if no_rename
                 then String.append (PyPath.stem (referenced_filename (ref_path r))) ".webp"
                 else img_name (plan_index e)) /\
  (no_rename = false ->
   (forall r, List.In r image_refs ->
              resolve_image d (referenced_filename (ref_path r)) <> None) ->
   List.map plan_new_name plan
   = List.map img_name (List.seq 1 (List.length image_refs))) /\
  (forall idx, img_name idx
               = String.append "img_"
                   (String.append (if (idx <? 10)%nat then String "0" (decimal idx)
                                   else decimal idx) ".webp")).
Proof.
  cbv zeta. rewrite build_plan_files.
  split; [| split].
  - intros e He.
    destruct (planned_entries_spec _ _ _ _ _ He) as (r & Hnth & Hle & Hres & Hname).
    exists r. repeat split; auto.
    + assert (plan_index e - 1 < List.length image_refs)%nat; [| lia].
      apply List.nth_error_Some. now rewrite Hnth.
    + rewrite Hname. unfold new_filename, img_name.
      destruct no_rename; [reflexivity |].
      now rewrite append_assoc.
  - intros -> Hall.
    rewrite (proj2 (planned_entries_all d false image_refs 1 Hall)). clear Hall.
    generalize 1%nat. induction image_refs as [|r refs IH]; intros idx; [reflexivity |].
    simpl. now rewrite IH.
  - intros idx. unfold img_name. now rewrite format_02d_spec.
Qed.

Lemma plan_output_names_witness :
  false = false /\
  (forall r, List.In r two_refs ->
             resolve_image two_files (referenced_filename (ref_path r)) <> None) /\
  List.map plan_new_name (files_to_process (build_plan two_files false false two_refs))
  = ["img_01.webp"; "img_02.webp"].
Proof.
  assert (Hall : forall r, List.In r two_refs ->
            resolve_image two_files (referenced_filename (ref_path r)) <> None).
  { intros r [<- | [<- | []]]; vm_compute; discriminate. }
  split; [reflexivity | split; [exact Hall |]].
  exact (proj1 (proj2 (plan_output_names two_files false false two_refs)) eq_refl Hall).
Defined.

(** ** Missing, unused and processed files *)

Lemma path_exists_entry (d : directory) (file : dir_entry) :
  List.In file d -> path_exists d (entry_name file) = true.
Proof.
  intros Hin. unfold path_exists. apply orb_true_iff. right.
  apply List.existsb_exists. exists file. split; [exact Hin | apply String.eqb_refl].
Qed.

(** A planned source file is an entry of the directory. *)
Lemma resolve_image_entry (d : directory) (filename file_path : string) :
  resolve_image d filename = Some file_path -> path_exists d file_path = true.
Proof.
  unfold resolve_image, find_file_by_basename.
  destruct (path_exists d filename) eqn:Ex.
  - unfold joined_name. destruct (String.eqb_spec filename "") as [-> | Hne].
    + discriminate.
    + destruct (get_file_type filename) as [[]|]; intros [= <-]; exact Ex.
  - destruct (List.find (stem_match _) d) as [file|] eqn:E1.
    + apply List.find_some in E1 as [Hin _].
      destruct (get_file_type _) as [[]|]; intros [= <-]; now apply path_exists_entry.
    + destruct (List.find (substring_match _) d) as [file|] eqn:E2; [| discriminate].
      apply List.find_some in E2 as [Hin _].
      destruct (get_file_type _) as [[]|]; intros [= <-]; now apply path_exists_entry.
  Qed.

Lemma find_none_absent (d : directory) (filename : string) :
  find_file_by_basename d filename = None -> path_exists d filename = false.
Proof.
  unfold find_file_by_basename. now destruct (path_exists d filename).
Qed.

Lemma planned_entries_entry (d : directory) (no_rename : bool)
    (refs : list image_ref) (idx : nat) (f : string) :
  List.In f (List.map plan_source (planned_entries d no_rename idx refs)) ->
  path_exists d f = true.
Proof.
  intros H. apply List.in_map_iff in H as (e & <- & He).
  destruct (planned_entries_spec _ _ _ _ _ He) as (r & _ & _ & Hres & _).
  now apply resolve_image_entry in Hres.
Qed.

(** C7: after planning, the unused files are the attachment files minus
    the resolved source files of the plan entries, and no name recorded as
    missing or as unused is the source file of a plan entry. *)
Theorem unused_missing_processed (d : directory) (no_rename verbose : bool)
    (image_refs : list image_ref) :
  let st := build_plan d no_rename verbose image_refs in
  processed_files st = list_to_set (List.map plan_source (files_to_process st)) /\
  list_to_set (unused_files d st) = all_files d ∖ processed_files st /\
  (forall f, f ∈ all_files d <->
             exists file, List.In file d /\ entry_is_file file = true /\ entry_name file = f) /\
  (forall f, List.In f (unused_files d st) -> f ∉ processed_files st) /\
  (forall f, List.In f (missing_files st) -> f ∉ processed_files st).
Proof.
  cbv zeta. unfold unused_files.
  rewrite build_plan_processed, build_plan_files. repeat split.
  - apply set_eq. intros f. rewrite elem_of_list_to_set, elem_of_elements. tauto.
  - unfold all_files. rewrite elem_of_list_to_set, list_elem_of_In, List.in_map_iff.
    intros (file & <- & Hf). apply List.filter_In in Hf as [Hin Hf]. eauto.
  - intros (file & Hin & Hf & <-). unfold all_files.
    rewrite elem_of_list_to_set, list_elem_of_In, List.in_map_iff.
    exists file. split; [reflexivity |]. now apply List.filter_In.
  - intros f Hf. apply list_elem_of_In, elem_of_elements in Hf. set_solver.
  - intros f Hf Hproc. unfold build_plan in Hf.
    apply plan_loop_missing in Hf as [[] | Hnone].
    apply find_none_absent in Hnone.
    apply elem_of_list_to_set, list_elem_of_In, planned_entries_entry in Hproc.
    congruence.
Qed.

Lemma unused_missing_processed_witness :
  List.In "gone.png" (missing_files (build_plan two_files false false gone_refs)) /\
  "gone.png" ∉ processed_files (build_plan two_files false false gone_refs).
Proof.
  assert (Hin : List.In "gone.png"
                  (missing_files (build_plan two_files false false gone_refs))).
  { left. reflexivity. }
  split; [exact Hin |].
  exact (proj2 (proj2 (proj2 (proj2
    (unused_missing_processed two_files false false gone_refs)))) _ Hin).
Defined.

(** ** Runs *)

Section RunFacts.

Variable stat_size : string -> pyres Z.
Variable image_open : string -> pyres image.
Variable image_save : image -> string -> Z -> pyres Z.
Variable output_exists : list event -> string -> bool.

Abbreviation convert := (convert_to_webp stat_size image_open image_save).
Abbreviation transcode := (process_image stat_size image_open image_save).
Abbreviation step := (exec_step stat_size image_open image_save).
Abbreviation exec := (execute stat_size image_open image_save).
Abbreviation publish_to := (publish output_exists).
Abbreviation run := (process_post stat_size image_open image_save output_exists).

Lemma validate_valid (s : post_dir) :
  fst (validate_source_directory s) = true <->
  exists markdown_name markdown_content d, valid_post s markdown_name markdown_content d.
Proof.
  unfold validate_source_directory, valid_post. split.
  - destruct (source_exists s); [| discriminate].
    destruct (source_is_dir s); [| discriminate].
    destruct (find_markdown_file s) as [[n c]|]; [| discriminate].
    destruct (attachments s) as [d|]; [| discriminate].
    intros _. now exists n, c, d.
  - intros (n & c & d & -> & -> & -> & ->). reflexivity.
Qed.

Lemma convert_quiet (max_width quality : Z) (input output_dir new_name : string) :
  transcode_calls (fst (convert max_width quality input output_dir new_name)) = [].
Proof.
  unfold convert_to_webp.
  destruct (stat_size input); [| reflexivity].
  destruct (image_open input); [| reflexivity].
  destruct (output_dimensions _ _ _) as [[w h]|]; reflexivity.
Qed.

Lemma process_image_events (max_width quality : Z) (input output_dir new_name : string)
    (file_type : option file_type) :
  fst (transcode max_width quality input output_dir new_name file_type)
  = fst (convert max_width quality input output_dir new_name).
Proof.
  unfold process_image.
  now destruct (convert max_width quality input output_dir new_name).
Qed.

(** A raised error becomes a failed result with the error text. *)
Lemma process_image_catches (max_width quality : Z) (input output_dir new_name : string)
    (file_type : option file_type) (e : exn) :
  snd (convert max_width quality input output_dir new_name) = Raise e ->
  snd (transcode max_width quality input output_dir new_name file_type)
  = Failure input (str_exn e).
Proof.
  unfold process_image.
  destruct (convert max_width quality input output_dir new_name) as [evs r].
  simpl. now intros ->.
Qed.

Lemma transcode_calls_app (a b : list event) :
  transcode_calls (a ++ b) = transcode_calls a ++ transcode_calls b.
Proof. apply List.flat_map_app. Qed.

Lemma transcode_calls_prints (ms : list message) :
  transcode_calls (List.map Print ms) = [].
Proof. induction ms as [|m ms IH]; [reflexivity | exact IH]. Qed.

Lemma transcode_calls_call (source output_dir new_name : string) (l : list event) :
  transcode_calls (ProcessImage source output_dir new_name :: l)
  = (source, new_name) :: transcode_calls l.
Proof. reflexivity. Qed.

Lemma exec_step_calls (max_width quality : Z) (verbose : bool) (output_dir : string)
    (st : exec_state) (p : plan_entry) :
  transcode_calls (exec_log (step max_width quality verbose output_dir st p))
  = transcode_calls (exec_log st) ++ [(plan_source p, plan_new_name p)].
Proof.
  unfold exec_step.
  pose proof (process_image_events max_width quality (plan_source p) output_dir
                (plan_new_name p) (get_file_type (plan_source p))) as Hev.
  pose proof (convert_quiet max_width quality (plan_source p) output_dir
                (plan_new_name p)) as Hq.
  rewrite <- Hev in Hq. clear Hev.
  destruct (transcode _ _ _ _ _ _) as [evs r]. simpl in Hq.
  destruct r; simpl;
    rewrite !transcode_calls_app, transcode_calls_prints, transcode_calls_call, Hq;
    simpl; now rewrite List.app_nil_r.
Qed.

Lemma exec_step_results (max_width quality : Z) (verbose : bool) (output_dir : string)
    (st : exec_state) (p : plan_entry) :
  List.length (results (step max_width quality verbose output_dir st p))
  = S (List.length (results st)).
Proof.
  unfold exec_step.
  destruct (transcode _ _ _ _ _ _) as [evs r].
  destruct r; simpl; rewrite List.length_app; simpl; lia.
Qed.

Lemma fold_exec_calls (max_width quality : Z) (verbose : bool) (output_dir : string)
    (plan : list plan_entry) (st : exec_state) :
  let st' := List.fold_left (step max_width quality verbose output_dir) plan st in
  transcode_calls (exec_log st') = transcode_calls (exec_log st) ++ plan_mapping plan /\
  List.length (results st') = (List.length (results st) + List.length plan)%nat.
Proof.
  revert st. induction plan as [|p plan IH]; intros st; simpl.
  - now rewrite List.app_nil_r, Nat.add_0_r.
  - destruct (IH (step max_width quality verbose output_dir st p)) as [IH1 IH2].
    rewrite IH1, IH2, exec_step_calls, exec_step_results, <- List.app_assoc.
    split; [reflexivity | lia].
Qed.

Lemma publish_calls (hugo_path : option string) (output_dir markdown_name : string)
    (plan : list plan_entry) (log : list event) :
  transcode_calls (publish_to hugo_path output_dir markdown_name plan log)
  = transcode_calls log.
Proof.
  unfold publish. destruct hugo_path as [hugo|]; [| reflexivity].
  rewrite !transcode_calls_app. simpl.
  match goal with
  | |- context [List.fold_left ?f plan []] =>
      assert (H : forall acc, transcode_calls acc = [] ->
                    transcode_calls (List.fold_left f plan acc) = [])
  end.
  { induction plan as [|p plan' IH]; intros acc Hacc; [exact Hacc |].
    simpl. apply IH. destruct (output_exists _ _); [| exact Hacc].
    now rewrite transcode_calls_app, Hacc. }
  now rewrite H, !List.app_nil_r.
Qed.

Lemma exec_step_grows (max_width quality : Z) (verbose : bool) (output_dir : string)
    (st : exec_state) (p : plan_entry) (x : event) :
  List.In x (exec_log st) ->
  List.In x (exec_log (step max_width quality verbose output_dir st p)).
Proof.
  intros Hx. unfold exec_step.
  destruct (transcode _ _ _ _ _ _) as [evs r].
  destruct r; simpl; rewrite !List.in_app_iff; auto.
Qed.

Lemma exec_step_reports (max_width quality : Z) (verbose : bool) (output_dir : string)
    (st : exec_state) (p : plan_entry) (e : exn) :
  snd (convert max_width quality (plan_source p) output_dir (plan_new_name p)) = Raise e ->
  List.In (Print (MsgImageFailed (plan_source p) (str_exn e)))
    (exec_log (step max_width quality verbose output_dir st p)).
Proof.
  intros He. unfold exec_step.
  pose proof (process_image_catches max_width quality (plan_source p) output_dir
                (plan_new_name p) (get_file_type (plan_source p)) e He) as Hr.
  destruct (transcode _ _ _ _ _ _) as [evs r]. simpl in Hr. subst r.
  simpl. rewrite !List.in_app_iff. right. now left.
Qed.

Lemma fold_exec_grows (max_width quality : Z) (verbose : bool) (output_dir : string)
    (plan : list plan_entry) (st : exec_state) (x : event) :
  List.In x (exec_log st) ->
  List.In x (exec_log (List.fold_left (step max_width quality verbose output_dir) plan st)).
Proof.
  revert st. induction plan as [|p plan IH]; intros st Hx; [exact Hx |].
  simpl. now apply IH, exec_step_grows.
Qed.

Lemma fold_exec_reports (max_width quality : Z) (verbose : bool) (output_dir : string)
    (plan : list plan_entry) (st : exec_state) (p : plan_entry) (e : exn) :
  List.In p plan ->
  snd (convert max_width quality (plan_source p) output_dir (plan_new_name p)) = Raise e ->
  List.In (Print (MsgImageFailed (plan_source p) (str_exn e)))
    (exec_log (List.fold_left (step max_width quality verbose output_dir) plan st)).
Proof.
  revert st. induction plan as [|p' plan IH]; intros st Hin He; [destruct Hin |].
  simpl. destruct Hin as [-> | Hin].
  - now apply fold_exec_grows, exec_step_reports.
  - now apply IH.
Qed.

Lemma publish_grows (hugo_path : option string) (output_dir markdown_name : string)
    (plan : list plan_entry) (log : list event) (x : event) :
  List.In x log -> List.In x (publish_to hugo_path output_dir markdown_name plan log).
Proof.
  intros Hx. unfold publish. destruct hugo_path as [hugo|]; [| exact Hx].
  rewrite !List.in_app_iff. auto.
Qed.

(** The planning loop prints no dry-run row and performs no transcode. *)
Lemma plan_log_quiet (d : directory) (no_rename verbose : bool)
    (refs : list image_ref) (st : plan_state) (idx : nat) :
  let st' := plan_loop d no_rename verbose st idx refs in
  dry_run_rows (List.map Print (plan_log st')) = dry_run_rows (List.map Print (plan_log st)) /\
  transcode_calls (List.map Print (plan_log st')) = [] /\
  List.filter is_write (List.map Print (plan_log st')) = [].
Proof.
  cbv zeta. repeat split; [| apply transcode_calls_prints |].
  - revert st idx. induction refs as [|r refs IH]; intros st idx; [reflexivity |].
    simpl. rewrite IH. unfold plan_step.
    destruct (find_file_by_basename d _) as [fp|]; simpl.
    + destruct (get_file_type fp) as [[]|]; simpl; try reflexivity;
        unfold dry_run_rows; rewrite List.map_app, List.flat_map_app;
        destruct verbose; simpl; now rewrite List.app_nil_r.
    + unfold dry_run_rows. rewrite List.map_app, List.flat_map_app.
      destruct verbose; simpl; now rewrite List.app_nil_r.
  - generalize (plan_log (plan_loop d no_rename verbose st idx refs)).
    intros ms. induction ms as [|m ms IH]; [reflexivity | exact IH].
Qed.

Lemma summary_quiet (missing unused : list string) :
  dry_run_rows (summary_lines missing unused) = [] /\
  transcode_calls (summary_lines missing unused) = [] /\
  List.filter is_write (summary_lines missing unused) = [].
Proof. unfold summary_lines. destruct missing, unused; now repeat split. Qed.

Lemma dry_run_rows_plan (plan : list plan_entry) :
  dry_run_rows (List.map (fun p => Print (MsgDryRunRow (plan_source p) (plan_new_name p))) plan)
  = plan_mapping plan.
Proof. induction plan as [|p plan IH]; [reflexivity |]. simpl. now rewrite IH. Qed.

Lemma rows_are_prints (plan : list plan_entry) :
  List.filter is_write
    (List.map (fun p => Print (MsgDryRunRow (plan_source p) (plan_new_name p))) plan) = [].
Proof. induction plan as [|p plan IH]; [reflexivity | exact IH]. Qed.

Lemma stats_calls (stats : bool) (log : list event) (m : message) :
  transcode_calls (if stats then log ++ [Print m] else log) = transcode_calls log.
Proof.
  destruct stats; [| reflexivity].
  rewrite transcode_calls_app. simpl. now rewrite List.app_nil_r.
Qed.

(** What a run on a valid post does, in dry-run mode and for real. *)
Lemma run_valid (s : post_dir) (markdown_name markdown_content : string) (d : directory)
    (output_dir : string) (hugo_path : option string) (max_width quality : Z)
    (no_rename verbose stats : bool) :
  valid_post s markdown_name markdown_content d ->
  let plan := files_to_process
                (build_plan d no_rename verbose (extract_image_references markdown_content)) in
  let dry := run s output_dir hugo_path max_width quality true no_rename verbose stats in
  let real := run s output_dir hugo_path max_width quality false no_rename verbose stats in
  fst dry = true /\ fst real = true /\
  List.filter is_write (snd dry) = [] /\
  dry_run_rows (snd dry) = plan_mapping plan /\
  transcode_calls (snd real) = plan_mapping plan /\
  List.In (MakeDirs output_dir) (snd real) /\
  (forall p e, List.In p plan ->
     snd (convert max_width quality (plan_source p) output_dir (plan_new_name p)) = Raise e ->
     List.In (Print (MsgImageFailed (plan_source p) (str_exn e))) (snd real)).
Proof.
  intros (Hex & Hdir & Hmd & Hat). cbv zeta.
  unfold process_post, validate_source_directory.
  rewrite Hex, Hdir, Hmd, Hat. cbn [negb fst snd].
  set (refs := extract_image_references markdown_content).
  set (st := build_plan d no_rename verbose refs).
  destruct (plan_log_quiet d no_rename verbose refs plan_init 1) as (Hrows & Hcalls & Hwr).
  fold (build_plan d no_rename verbose refs) in Hrows, Hcalls, Hwr. fold st in Hrows, Hcalls, Hwr.
  destruct (summary_quiet (missing_files st) (unused_files d st)) as (Srows & Scalls & Swr).
  repeat split.
  - rewrite !List.filter_app, Hwr, Swr, rows_are_prints. reflexivity.
  - unfold dry_run_rows in *. rewrite !List.flat_map_app.
    fold dry_run_rows in *. rewrite Hrows, Srows, dry_run_rows_plan. simpl.
    now rewrite List.app_nil_r.
  - rewrite stats_calls, publish_calls, transcode_calls_app. unfold execute.
    rewrite (proj1 (fold_exec_calls _ _ _ _ _ _)). cbn [exec_log].
    rewrite !transcode_calls_app, Hcalls, Scalls. simpl. now rewrite List.app_nil_r.
  - destruct stats; [apply List.in_app_iff; left |];
      apply publish_grows, List.in_app_iff; left;
      apply fold_exec_grows; cbn [exec_log];
      apply List.in_app_iff; right; now left.
  - intros p e Hin He.
    destruct stats; [apply List.in_app_iff; left |];
      apply publish_grows, List.in_app_iff; left;
      now apply fold_exec_reports.
Qed.

End RunFacts.

(** C8: a dry run writes nothing: its log holds no directory creation,
    no image, no markdown file and no copy; on a source that passes
    validation it returns success and the rows it prints are, in order,
    the (source, output name) pairs that the run without the flag hands to
    the transcoder on the same inputs (a run that does create the output
    directory). *)
Theorem dry_run_writes_nothing
    (stat_size : string -> pyres Z) (image_open : string -> pyres image)
    (image_save : image -> string -> Z -> pyres Z)
    (output_exists : list event -> string -> bool)
    (s : post_dir) (output_dir : string) (hugo_path : option string)
    (max_width quality : Z) (no_rename verbose stats : bool) :
  let dry := process_post stat_size image_open image_save output_exists
               s output_dir hugo_path max_width quality true no_rename verbose stats in
  let real := process_post stat_size image_open image_save output_exists
                s output_dir hugo_path max_width quality false no_rename verbose stats in
  List.filter is_write (snd dry) = [] /\
  (fst (validate_source_directory s) = true ->
   fst dry = true /\
   dry_run_rows (snd dry) = transcode_calls (snd real) /\
   List.In (MakeDirs output_dir) (snd real)).
Proof.
  cbv zeta. destruct (fst (validate_source_directory s)) eqn:Hv.
  - apply validate_valid in Hv as (n & c & d & Hvalid).
    destruct (run_valid stat_size image_open image_save output_exists s n c d
                output_dir hugo_path max_width quality no_rename verbose stats Hvalid)
      as (Hdry & _ & Hwr & Hrows & Hcalls & Hmk & _).
    split; [exact Hwr |]. intros _. now rewrite Hrows, Hcalls.
  - split; [| discriminate].
    unfold process_post. destruct (validate_source_directory s) as [b m].
    simpl in Hv. subst b. reflexivity.
Qed.

Lemma dry_run_writes_nothing_witness :
  fst (validate_source_directory demo_post) = true /\
  fst (process_post demo_stat demo_open demo_save demo_exists
         demo_post "out" None 1600 95 true false false true) = true /\
  dry_run_rows (snd (process_post demo_stat demo_open demo_save demo_exists
                       demo_post "out" None 1600 95 true false false true))
  = transcode_calls (snd (process_post demo_stat demo_open demo_save demo_exists
                            demo_post "out" None 1600 95 false false false true)) /\
  List.In (MakeDirs "out")
    (snd (process_post demo_stat demo_open demo_save demo_exists
            demo_post "out" None 1600 95 false false false true)).
Proof.
  split; [reflexivity |].
  exact (proj2 (dry_run_writes_nothing demo_stat demo_open demo_save demo_exists
                  demo_post "out" None 1600 95 false false true) eq_refl).
Defined.

(** C9: when the transcode of a plan entry raises, [process_image]
    returns a failed result that carries the error text; the run reports
    it, still hands every plan entry to the transcoder, in order, and
    returns success. *)
Theorem transcode_failure_not_fatal
    (stat_size : string -> pyres Z) (image_open : string -> pyres image)
    (image_save : image -> string -> Z -> pyres Z)
    (output_exists : list event -> string -> bool)
    (s : post_dir) (markdown_name markdown_content : string) (d : directory)
    (output_dir : string) (hugo_path : option string)
    (max_width quality : Z) (no_rename verbose stats : bool)
    (p : plan_entry) (e : exn) :
  let plan := files_to_process
                (build_plan d no_rename verbose (extract_image_references markdown_content)) in
  let real := process_post stat_size image_open image_save output_exists
                s output_dir hugo_path max_width quality false no_rename verbose stats in
  valid_post s markdown_name markdown_content d ->
  List.In p plan ->
  snd (convert_to_webp stat_size image_open image_save max_width quality
         (plan_source p) output_dir (plan_new_name p)) = Raise e ->
  snd (process_image stat_size image_open image_save max_width quality
         (plan_source p) output_dir (plan_new_name p) (get_file_type (plan_source p)))
  = Failure (plan_source p) (str_exn e) /\
  List.In (Print (MsgImageFailed (plan_source p) (str_exn e))) (snd real) /\
  transcode_calls (snd real) = plan_mapping plan /\
  fst real = true.
Proof.
  cbv zeta. intros Hvalid Hin He.
  destruct (run_valid stat_size image_open image_save output_exists s
              markdown_name markdown_content d
              output_dir hugo_path max_width quality no_rename verbose stats Hvalid)
    as (_ & Hreal & _ & _ & Hcalls & _ & Hrep).
  repeat split; auto.
  now apply process_image_catches.
Qed.

Lemma transcode_failure_not_fatal_witness :
  valid_post demo_post "index.md" "![a](x.png) ![b](y.jpg)" demo_listing /\
  List.In demo_entry
    (files_to_process
       (build_plan demo_listing false false
          (extract_image_references "![a](x.png) ![b](y.jpg)"))) /\
  snd (process_image demo_stat demo_open demo_save 1600 95
         (plan_source demo_entry) "out" (plan_new_name demo_entry)
         (get_file_type (plan_source demo_entry)))
  = Failure (plan_source demo_entry)
      (str_exn (ImageError "cannot identify image file")) /\
  transcode_calls
    (snd (process_post demo_stat demo_open demo_save demo_exists
            demo_post "out" None 1600 95 false false false true))
  = plan_mapping
      (files_to_process
         (build_plan demo_listing false false
            (extract_image_references "![a](x.png) ![b](y.jpg)"))) /\
  fst (process_post demo_stat demo_open demo_save demo_exists
         demo_post "out" None 1600 95 false false false true) = true.
Proof.
  assert (Hvalid : valid_post demo_post "index.md" "![a](x.png) ![b](y.jpg)" demo_listing)
    by (repeat split; reflexivity).
  assert (Hin : List.In demo_entry
                  (files_to_process
                     (build_plan demo_listing false false
                        (extract_image_references "![a](x.png) ![b](y.jpg)")))).
  { vm_compute. left. reflexivity. }
  destruct (transcode_failure_not_fatal demo_stat demo_open demo_save demo_exists
              demo_post "index.md" "![a](x.png) ![b](y.jpg)" demo_listing
              "out" None 1600 95 false false true demo_entry
              (ImageError "cannot identify image file") Hvalid Hin eq_refl)
    as (H1 & _ & H3 & H4).
  repeat split; assumption.
Defined.

(** ** The rewrite *)

Section RewriteFacts.

Variable stat_size : string -> pyres Z.
Variable image_open : string -> pyres image.
Variable image_save : image -> string -> Z -> pyres Z.
Variable output_exists : list event -> string -> bool.

(** A run that is not a dry run writes the markdown rewritten by the
  loop over the zipped lists. *)
Lemma run_writes_markdown (s : post_dir) (markdown_name markdown_content : string)
  (d : directory) (output_dir : string) (hugo_path : option string)
  (max_width quality : Z) (no_rename verbose stats : bool) :
valid_post s markdown_name markdown_content d ->
let refs := extract_image_references markdown_content in
let plan := files_to_process (build_plan d no_rename verbose refs) in
List.In (WriteText output_dir markdown_name (rewrite_markdown markdown_content refs plan))
  (snd (process_post stat_size image_open image_save output_exists
          s output_dir hugo_path max_width quality false no_rename verbose stats)).
Proof.
intros (Hex & Hdir & Hmd & Hat). cbv zeta.
unfold process_post, validate_source_directory.
rewrite Hex, Hdir, Hmd, Hat. cbn [negb fst snd].
destruct stats; [apply List.in_app_iff; left |];
  apply publish_grows, List.in_app_iff; right; right; now left.
Qed.

End RewriteFacts.

(** C1 fails on the code.  The rewrite pairs the reference list with the
    plan by position: once a reference has no plan entry, the references
    and the plan entries are out of step.  Here the first reference is
    missing and the second is planned as [img_02.webp]; the written
    markdown points the missing reference to [img_02.webp] and leaves the
    resolved one as it was.  With an image shown twice, both references
    get the name planned for the first. *)
Theorem rewrite_pairs_by_position
    (stat_size : string -> pyres Z) (image_open : string -> pyres image)
    (image_save : image -> string -> Z -> pyres Z)
    (output_exists : list event -> string -> bool) :
  let refs := extract_image_references misaligned_markdown in
  let st := build_plan misaligned_listing false false refs in
  refs = [("![a](missing.png)", "a", "missing.png"); ("![b](x.png)", "b", "x.png")] /\
  missing_files st = ["missing.png"] /\
  files_to_process st = [("x.png", "img_02.webp", 2%nat)] /\
  rewrite_markdown misaligned_markdown refs (files_to_process st)
  = "![a](img_02.webp) ![b](x.png)" /\
  List.In (WriteText "out" "index.md" "![a](img_02.webp) ![b](x.png)")
    (snd (process_post stat_size image_open image_save output_exists
            misaligned_post "out" None 1600 95 false false false false)) /\
  let refs2 := extract_image_references repeated_markdown in
  let plan2 := files_to_process (build_plan misaligned_listing false false refs2) in
  plan2 = [("x.png", "img_01.webp", 1%nat); ("x.png", "img_02.webp", 2%nat)] /\
  rewrite_markdown repeated_markdown refs2 plan2
  = "![a](img_01.webp) and ![a](img_01.webp)".
Proof.
  cbv zeta.
  assert (Hrw : rewrite_markdown misaligned_markdown
                  (extract_image_references misaligned_markdown)
                  (files_to_process
                     (build_plan misaligned_listing
                        false false (extract_image_references misaligned_markdown)))
                = "![a](img_02.webp) ![b](x.png)") by (vm_compute; reflexivity).
  split; [vm_compute; reflexivity |].
  split; [vm_compute; reflexivity |].
  split; [vm_compute; reflexivity |].
  split; [exact Hrw |].
  split; [| split; vm_compute; reflexivity].
  rewrite <- Hrw.
  apply (run_writes_markdown stat_size image_open image_save output_exists
           misaligned_post "index.md" misaligned_markdown misaligned_listing).
  unfold valid_post. simpl. auto.
Qed.

(** ** Binary64 arithmetic

    The operations of [SpecFloat] on values of the normal range: a
    result is the correctly rounded exact value, so it is within half a
    unit in the last place of it.  Values are compared as integers, both
    sides scaled by a common power of two. *)

Section FloatFacts.

Local Open Scope Z_scope.

(** [digits2_pos p] is the number of binary digits of [p]. *)
Lemma digits2_pos_spec (p : positive) :
  2 ^ (Zpos (digits2_pos p) - 1) <= Zpos p < 2 ^ Zpos (digits2_pos p).
Proof.
  induction p as [p IH | p IH |]; simpl digits2_pos.
  - rewrite Pos2Z.inj_succ.
    replace (Z.succ (Zpos (digits2_pos p)) - 1) with (Z.succ (Zpos (digits2_pos p) - 1)) by lia.
    rewrite !Z.pow_succ_r by lia. lia.
  - rewrite Pos2Z.inj_succ.
    replace (Z.succ (Zpos (digits2_pos p)) - 1) with (Z.succ (Zpos (digits2_pos p) - 1)) by lia.
    rewrite !Z.pow_succ_r by lia. lia.
  - simpl. lia.
Qed.

Lemma digits2_pos_unique (p : positive) (k : Z) :
  2 ^ (k - 1) <= Zpos p < 2 ^ k -> Zpos (digits2_pos p) = k.
Proof.
  intros [Hlo Hhi]. pose proof (digits2_pos_spec p) as [Dlo Dhi].
  assert (0 < k). { destruct (Z.le_gt_cases k 0) as [H|H]; [|lia]. 
    assert (2 ^ k <= 2 ^ 0) by (destruct (Z.eq_dec k 0); [subst; lia|rewrite Z.pow_neg_r by lia; simpl; lia]). simpl in *. lia. }
  destruct (Z.lt_trichotomy (Zpos (digits2_pos p)) k) as [H1 | [H1 | H1]]; [| exact H1 |].
  - assert (2 ^ Zpos (digits2_pos p) <= 2 ^ (k - 1)) by (apply Z.pow_le_mono_r; lia). lia.
  - assert (2 ^ k <= 2 ^ (Zpos (digits2_pos p) - 1)) by (apply Z.pow_le_mono_r; lia). lia.
Qed.

(** One step of the right shift halves the mantissa and keeps track of
    where the exact value lies. *)
Lemma shr_1_step (N D m : Z) (r s : bool) :
  0 < D -> 0 <= m -> loc_ok N D m r s ->
  let mrs := shr_1 (Build_shr_record m r s) in
  loc_ok N (2 * D) (shr_m mrs) (shr_r mrs) (shr_s mrs) /\ 0 <= shr_m mrs /\
  (m = 2 * shr_m mrs + (if shr_r mrs then 1 else 0)).
Proof.
  intros HD Hm H. unfold shr_1.
  destruct m as [|[p|p|]|p]; try lia;
    destruct r, s; cbn [orb shr_m shr_r shr_s loc_ok] in *;
    try (pose proof (Pos2Z.inj_xI p) as Hp; set (x := Z.pos p~1) in *; clearbody x);
    try (pose proof (Pos2Z.inj_xO p) as Hp; set (x := Z.pos p~0) in *; clearbody x);
    repeat split; try lia.
Qed.

Lemma shr_1_located (N D : Z) (mrs : shr_record) :
  0 < D -> located N D mrs ->
  located N (2 * D) (shr_1 mrs) /\ shr_m (shr_1 mrs) = shr_m mrs / 2.
Proof.
  intros HD [Hm H]. destruct mrs as [m r s]. cbn [shr_m shr_r shr_s] in *.
  destruct (shr_1_step N D m r s HD Hm H) as (H1 & H2 & H3).
  split; [split; assumption |].
  apply Z.div_unique with (r := if shr_r (shr_1 (Build_shr_record m r s)) then 1 else 0).
  - left. destruct (shr_r _); lia.
  - exact H3.
Qed.

(** So does the shift by [p] digits. *)
Lemma iter_shr_located (p : positive) :
  forall (N D : Z) (mrs : shr_record),
    0 < D -> located N D mrs ->
    located N (2 ^ Zpos p * D) (SpecFloat.iter_pos shr_1 p mrs) /\
    shr_m (SpecFloat.iter_pos shr_1 p mrs) = shr_m mrs / 2 ^ Zpos p.
Proof.
  induction p as [p IH | p IH |]; intros N D mrs HD H; cbn [SpecFloat.iter_pos].
  - destruct (shr_1_located N D mrs HD H) as [H1 E1].
    destruct (IH N (2 * D) _ ltac:(lia) H1) as [H2 E2].
    assert (0 < 2 ^ Zpos p) by (apply Z.pow_pos_nonneg; lia).
    destruct (IH N (2 ^ Zpos p * (2 * D)) _ ltac:(lia) H2) as [H3 E3].
    assert (E : 2 ^ Z.pos p~1 = 2 ^ Zpos p * (2 ^ Zpos p * 2)).
    { replace (Z.pos p~1) with (Zpos p + (Zpos p + 1)) by lia.
      rewrite !Z.pow_add_r by lia. reflexivity. }
    rewrite E. split.
    + replace (2 ^ Zpos p * (2 ^ Zpos p * 2) * D) with (2 ^ Zpos p * (2 ^ Zpos p * (2 * D))) by ring.
      exact H3.
    + rewrite E3, E2, E1, !Z.div_div by lia. f_equal. ring.
  - assert (0 < 2 ^ Zpos p) by (apply Z.pow_pos_nonneg; lia).
    destruct (IH N D _ HD H) as [H2 E2].
    destruct (IH N (2 ^ Zpos p * D) _ ltac:(lia) H2) as [H3 E3].
    assert (E : 2 ^ Z.pos p~0 = 2 ^ Zpos p * 2 ^ Zpos p).
    { replace (Z.pos p~0) with (Zpos p + Zpos p) by lia.
      rewrite !Z.pow_add_r by lia. reflexivity. }
    rewrite E. split.
    + replace (2 ^ Zpos p * 2 ^ Zpos p * D) with (2 ^ Zpos p * (2 ^ Zpos p * D)) by ring.
      exact H3.
    + rewrite E3, E2, !Z.div_div by lia. reflexivity.
  - change (2 ^ 1) with 2. apply shr_1_located; assumption.
Qed.

(** Rounding to nearest, ties to even, moves the value by half a unit at
    most. *)
Lemma round_nearest_even_close (N D : Z) (mrs : shr_record) :
  0 < D -> located N D mrs ->
  let m1 := round_nearest_even (shr_m mrs) (loc_of_shr_record mrs) in
  shr_m mrs <= m1 <= shr_m mrs + 1 /\ 2 * Z.abs (m1 * D - N) <= D.
Proof.
  intros HD [Hm H]. destruct mrs as [m [] []]; cbn [shr_m shr_r shr_s loc_ok loc_of_shr_record round_nearest_even] in *.
  - lia.
  - destruct (Z.even m); lia.
  - lia.
  - lia.
Qed.

Lemma fexp_normal (e : Z) : -1074 <= e - 53 -> fexp 53 1024 e = e - 53.
Proof. unfold fexp, emin. lia. Qed.

Lemma located_of_loc_exact (m : Z) : 0 <= m -> located m 1 (shr_record_of_loc m loc_Exact).
Proof. intros H. split; simpl; lia. Qed.

Lemma shr_located (N D : Z) (mrs : shr_record) (e n : Z) :
  0 < D -> 0 <= n -> located N D mrs ->
  located N (2 ^ n * D) (fst (shr mrs e n)) /\
  shr_m (fst (shr mrs e n)) = shr_m mrs / 2 ^ n /\
  snd (shr mrs e n) = e + n.
Proof.
  intros HD Hn H. unfold shr. destruct n as [|p|p]; try lia; cbn [fst snd].
  - rewrite Z.pow_0_r, Z.mul_1_l, Z.div_1_r, Z.add_0_r. auto.
  - destruct (iter_shr_located p N D mrs HD H). auto.
Qed.

Lemma shr_m_of_loc (m : Z) (l : location) : shr_m (shr_record_of_loc m l) = m.
Proof. destruct l as [|[]]; reflexivity. Qed.

(** A rounded mantissa that reached 2^53 is shifted once more, without
    loss. *)
Lemma renormalize (sx : bool) (m1 e : Z) :
  2 ^ 52 <= m1 <= 2 ^ 53 -> -1074 <= e -> e + 1 <= 971 ->
  exists m e',
    (let '(mrs, e'') := shr_fexp 53 1024 m1 e loc_Exact in
     match shr_m mrs with
     | Z0 => S754_zero sx
     | Zpos m => if e'' <=? 1024 - 53 then S754_finite sx m e'' else S754_infinity sx
     | Zneg _ => S754_nan
     end) = S754_finite sx m e' /\
    2 ^ 52 <= Zpos m < 2 ^ 53 /\ e <= e' <= e + 1 /\ Zpos m * 2 ^ (e' - e) = m1.
Proof.
  intros Hm Hlo Hhi. unfold shr_fexp.
  destruct (Z.eq_dec m1 (2 ^ 53)) as [-> | Hno].
  - change (2 ^ 53) with 9007199254740992.
    change (Zdigits2 9007199254740992) with 54.
    rewrite (fexp_normal (54 + e)) by lia.
    replace (54 + e - 53 - e) with 1 by lia.
    cbn [shr SpecFloat.iter_pos shr_record_of_loc shr_1 shr_m orb].
    change (1024 - 53) with 971.
    destruct (Z.leb_spec (e + 1) 971) as [_ | Hbad]; [| lia].
    exists (4503599627370496%positive), (e + 1).
    split; [reflexivity |]. split; [simpl; lia |]. split; [lia |].
    replace (e + 1 - e) with 1 by lia. reflexivity.
  - destruct m1 as [|q|q]; try (simpl in Hm; lia).
    assert (Hdq : Zpos (digits2_pos q) = 53).
    { apply digits2_pos_unique. change (53 - 1) with 52. lia. }
    cbn [Zdigits2]. rewrite Hdq.
    rewrite (fexp_normal (53 + e)) by lia.
    replace (53 + e - 53 - e) with 0 by lia.
    cbn [shr shr_record_of_loc shr_m].
    change (1024 - 53) with 971.
    destruct (Z.leb_spec e 971) as [_ | Hbad]; [| lia].
    exists q, e.
    split; [reflexivity |]. split; [lia |]. split; [lia |].
    replace (e - e) with 0 by lia. rewrite Z.pow_0_r, Z.mul_1_r. reflexivity.
Qed.

(** The rounding of a mantissa of 53 digits or more in the normal range:
    the result has a mantissa of 53 digits and lies within half a unit in
    the last place of the exact value [N / D * 2^ex]. *)
Lemma binary_round_aux_normal (sx : bool) (p : positive) (ex : Z) (lx : location)
    (N D : Z) :
  let d := Zpos (digits2_pos p) in
  let n := d - 53 in
  0 < D -> 53 <= d -> -1074 <= d + ex - 53 -> d + ex <= 1023 ->
  located N D (shr_record_of_loc (Zpos p) lx) ->
  exists m e,
    binary_round_aux 53 1024 sx (Zpos p) ex lx = S754_finite sx m e /\
    2 ^ 52 <= Zpos m < 2 ^ 53 /\
    ex + n <= e <= ex + n + 1 /\
    2 * Z.abs (Zpos m * 2 ^ (e - ex - n) * (2 ^ n * D) - N) <= 2 ^ n * D.
Proof.
  intros d n HD Hd Hlo Hhi Hloc.
  pose proof (digits2_pos_spec p) as Hp. fold d in Hp.
  unfold binary_round_aux. unfold shr_fexp at 1.
  cbn [Zdigits2]. fold d.
  rewrite (fexp_normal (d + ex)) by lia.
  replace (d + ex - 53 - ex) with n by (unfold n; lia).
  assert (Hn : 0 <= n) by (unfold n; lia).
  destruct (shr_located N D (shr_record_of_loc (Zpos p) lx) ex n HD Hn Hloc)
    as (Hloc1 & Hm1 & He1).
  destruct (shr (shr_record_of_loc (Zpos p) lx) ex n) as [mrs1 e1].
  cbn [fst snd] in *. subst e1. rewrite shr_m_of_loc in Hm1.
  assert (Hpn : 0 < 2 ^ n) by (apply Z.pow_pos_nonneg; lia).
  assert (HD1 : 0 < 2 ^ n * D) by lia.
  destruct (round_nearest_even_close N (2 ^ n * D) mrs1 HD1 Hloc1) as [Hr Hclose].
  assert (Hq : 2 ^ 52 <= shr_m mrs1 < 2 ^ 53).
  { rewrite Hm1.
    assert (E1 : 2 ^ (d - 1) = 2 ^ 52 * 2 ^ n).
    { rewrite <- Z.pow_add_r by lia. f_equal. unfold n. lia. }
    assert (E2 : 2 ^ d = 2 ^ 53 * 2 ^ n).
    { rewrite <- Z.pow_add_r by lia. f_equal. unfold n. lia. }
    split.
    - apply Z.div_le_lower_bound; lia.
    - apply Z.div_lt_upper_bound; lia. }
  destruct (renormalize sx (round_nearest_even (shr_m mrs1) (loc_of_shr_record mrs1))
              (ex + n)) as (m & e & Hbra & Hm & He & Hval); [lia | unfold n; lia | unfold n; lia |].
  exists m, e. split; [exact Hbra |]. split; [exact Hm |]. split; [lia |].
  replace (e - ex - n) with (e - (ex + n)) by lia. rewrite Hval. exact Hclose.
Qed.

(** The location computed by the division is that of the remainder. *)
Lemma new_location_located (b q r : Z) :
  0 < b -> 0 <= q -> 0 <= r < b ->
  located (q * b + r) b (shr_record_of_loc q (new_location b r)).
Proof.
  intros Hb Hq Hr. unfold new_location, new_location_even, new_location_odd.
  destruct (Z.even b) eqn:Eb.
  - destruct (Z.eqb_spec r 0) as [-> | Hne].
    + split; simpl; lia.
    + destruct (Z.compare_spec (2 * r) b); split; simpl; lia.
  - destruct (Z.eqb_spec r 0) as [-> | Hne].
    + split; simpl; lia.
    + assert (Hodd : Z.odd b = true) by (rewrite <- Z.negb_even, Eb; reflexivity).
      apply Z.odd_spec in Hodd as [c Hc].
      destruct (Z.compare_spec (2 * r + 1) b); split; simpl; lia.
Qed.

(** The quotient of two positive ints below 2^53 is within half a unit
    in the last place of the exact quotient. *)
Lemma truediv_close (m b : Z) :
  0 < m < 2 ^ 53 -> 0 < b < 2 ^ 53 ->
  exists mq e2 sh t,
    PyNum.truediv m b = Ok (S754_finite false mq e2) /\
    2 ^ 52 <= Zpos mq < 2 ^ 53 /\
    0 <= sh <= 105 /\ 0 <= t <= 2 /\ e2 = t - sh /\
    2 * Z.abs (Zpos mq * 2 ^ t * b - m * 2 ^ sh) <= 2 ^ t * b.
Proof.
  intros Hm Hb. unfold PyNum.truediv.
  destruct (Z.eqb_spec b 0) as [| _]; [lia |].
  destruct m as [|pm|pm]; try lia. destruct b as [|pb|pb]; try lia.
  cbn [PyNum.int_as_float]. unfold PyNum.prec, PyNum.emax, SFdiv, SFdiv_core_binary.
  cbn [Zdigits2 xorb].
  pose proof (digits2_pos_spec pm) as Hd1. pose proof (digits2_pos_spec pb) as Hd2.
  set (d1 := Zpos (digits2_pos pm)) in *. set (d2 := Zpos (digits2_pos pb)) in *.
  assert (Hd1r : 1 <= d1 <= 53).
  { split; [unfold d1; lia |].
    destruct (Z.le_gt_cases d1 53) as [H | H]; [exact H |].
    assert (2 ^ 53 <= 2 ^ (d1 - 1)) by (apply Z.pow_le_mono_r; lia). lia. }
  assert (Hd2r : 1 <= d2 <= 53).
  { split; [unfold d2; lia |].
    destruct (Z.le_gt_cases d2 53) as [H | H]; [exact H |].
    assert (2 ^ 53 <= 2 ^ (d2 - 1)) by (apply Z.pow_le_mono_r; lia). lia. }
  replace (d1 + 0 - (d2 + 0)) with (d1 - d2) by lia.
  rewrite (fexp_normal (d1 - d2)) by lia.
  change (0 - 0) with 0.
  rewrite Z.min_l by lia.
  set (sh := 53 + d2 - d1).
  replace (0 - (d1 - d2 - 53)) with sh by (unfold sh; lia).
  assert (HS : 1 <= sh <= 105) by (unfold sh; lia).
  destruct sh as [|ps|ps] eqn:ES; try lia. rewrite <- ES in *.
  rewrite Z.shiftl_mul_pow2 by lia.
  pose proof (Z.div_eucl_eq (Zpos pm * 2 ^ sh) (Zpos pb) ltac:(lia)) as Hdiv.
  pose proof (Z.mod_pos_bound (Zpos pm * 2 ^ sh) (Zpos pb) ltac:(lia)) as Hmod.
  unfold Z.modulo, Z.div in *.
  destruct (Z.div_eucl (Zpos pm * 2 ^ sh) (Zpos pb)) as [q r].
  assert (HpS : 0 < 2 ^ sh) by (apply Z.pow_pos_nonneg; lia).
  (* bounds on the quotient *)
  assert (E1 : 2 ^ (d1 - 1) * 2 ^ sh = 2 ^ (52 + d2)).
  { rewrite <- Z.pow_add_r by lia. f_equal. unfold sh. lia. }
  assert (E2 : 2 ^ d1 * 2 ^ sh = 2 ^ (53 + d2)).
  { rewrite <- Z.pow_add_r by lia. f_equal. unfold sh. lia. }
  assert (E3 : 2 ^ (52 + d2) = 2 ^ 52 * 2 ^ d2) by (apply Z.pow_add_r; lia).
  assert (E4 : 2 ^ (53 + d2) = 2 ^ 54 * 2 ^ (d2 - 1)).
  { rewrite <- Z.pow_add_r by lia. f_equal. lia. }
  assert (Hpd2 : 0 < 2 ^ (d2 - 1)) by (apply Z.pow_pos_nonneg; lia).
  assert (Hq : 2 ^ 52 <= q < 2 ^ 54) by nia.
  destruct q as [|pq|pq]; try (simpl in Hq; lia).
  set (dq := Zpos (digits2_pos pq)).
  assert (Hdq : dq = 53 \/ dq = 54).
  { destruct (Z.lt_ge_cases (Zpos pq) (2 ^ 53)).
    - left. apply digits2_pos_unique. change (53 - 1) with 52. lia.
    - right. apply digits2_pos_unique. change (54 - 1) with 53. lia. }
  destruct (binary_round_aux_normal false pq (d1 - d2 - 53) (new_location (Zpos pb) r)
              (Zpos pm * 2 ^ sh) (Zpos pb))
    as (mq & e2 & Hbra & Hmq & He & Hclose);
    [lia | fold dq; lia | fold dq; lia | fold dq; lia | |].
  { rewrite Hdiv, (Z.mul_comm (Zpos pb)). apply new_location_located; lia. }
  fold dq in He, Hclose.
  rewrite Hbra. cbn [PyNum.check_finite].
  exists mq, e2, sh, (e2 - (d1 - d2 - 53)).
  split; [reflexivity |]. split; [exact Hmq |]. split; [lia |].
  split; [lia |]. split; [unfold sh; lia |].
  set (n := dq - 53) in *.
  replace (e2 - (d1 - d2 - 53)) with ((e2 - (d1 - d2 - 53) - n) + n) by lia.
  assert (Hn : 0 <= n) by (unfold n; lia).
  assert (Hk : 0 <= e2 - (d1 - d2 - 53) - n <= 1) by lia.
  rewrite Z.pow_add_r by lia.
  assert (Hpn : 0 < 2 ^ n) by (apply Z.pow_pos_nonneg; lia).
  assert (Hpk : 0 < 2 ^ (e2 - (d1 - d2 - 53) - n)) by (apply Z.pow_pos_nonneg; lia).
  rewrite Z.mul_assoc.
  set (X := Zpos mq * 2 ^ (e2 - (d1 - d2 - 53) - n)) in *.
  replace (X * 2 ^ n * Zpos pb) with (X * (2 ^ n * Zpos pb)) by ring.
  eapply Z.le_trans; [exact Hclose |].
  rewrite <- Z.mul_assoc.
  rewrite <- (Z.mul_1_l (2 ^ n * Z.pos pb)) at 1.
  apply Z.mul_le_mono_nonneg_r; lia.
Qed.

Lemma iter_xO_pow (k p : positive) : Zpos (Pos.iter xO p k) = Zpos p * 2 ^ Zpos k.
Proof.
  induction k as [|k IH] using Pos.peano_ind.
  - simpl. lia.
  - rewrite Pos.iter_succ, Pos2Z.inj_succ, Z.pow_succ_r by lia.
    rewrite Pos2Z.inj_xO, IH. ring.
Qed.

Lemma digits_range (p : positive) (k : Z) :
  0 < k -> Zpos p < 2 ^ k -> 1 <= Zpos (digits2_pos p) <= k.
Proof.
  intros Hk Hp. pose proof (digits2_pos_spec p) as [Hlo _].
  split; [lia |].
  destruct (Z.le_gt_cases (Zpos (digits2_pos p)) k) as [H | H]; [exact H |].
  assert (2 ^ k <= 2 ^ (Zpos (digits2_pos p) - 1)) by (apply Z.pow_le_mono_r; lia). lia.
Qed.



(** [int] of a positive float is its value rounded down. *)
Lemma int_of_float_floor (m : positive) (e x G : Z) :
  0 <= x -> 0 <= G -> e = x - G ->
  PyNum.int_of_float (S754_finite false m e) = Ok (Zpos m * 2 ^ x / 2 ^ G).
Proof.
  intros Hx HG ->. unfold PyNum.int_of_float. f_equal.
  assert (0 < 2 ^ G) by (apply Z.pow_pos_nonneg; lia).
  assert (0 < 2 ^ x) by (apply Z.pow_pos_nonneg; lia).
  destruct (x - G) as [|k|k] eqn:E.
  - replace x with G by lia. rewrite Z.pow_0_r, Z.mul_1_r, Z.div_mul by lia. reflexivity.
  - replace x with (Zpos k + G) by lia.
    rewrite Z.pow_add_r, Z.mul_assoc, Z.div_mul by lia. reflexivity.
  - rewrite Z.pow_pos_fold, Z.quot_div_nonneg by (try apply Z.pow_pos_nonneg; lia).
    replace G with (x + Zpos k) by lia.
    rewrite Z.pow_add_r by lia.
    rewrite (Z.mul_comm (2 ^ x)), Z.div_mul_cancel_r by lia. reflexivity.
Qed.

(** A value within less than 1/b of am / b has the integer part of
    am / b, or one below it when b divides am. *)
Lemma quotient_window (U W am b : Z) :
  0 < b -> 0 < W -> 0 <= am ->
  Z.abs (U * b - am * W) < W ->
  am / b - 1 <= U / W <= am / b /\ (am mod b <> 0 -> U / W = am / b).
Proof.
  intros Hb HW Ham Habs.
  pose proof (Z.div_mod am b ltac:(lia)) as Hdm.
  pose proof (Z.mod_pos_bound am b Hb) as Hrem.
  set (k := am / b) in *. set (rem := am mod b) in *.
  assert (Hamw : am * W = k * W * b + rem * W) by (rewrite Hdm at 1; ring).
  assert (HremW : 0 <= rem * W) by (apply Z.mul_nonneg_nonneg; lia).
  assert (HremW' : rem * W <= (b - 1) * W) by (apply Z.mul_le_mono_nonneg_r; lia).
  assert (HbW : W <= b * W).
  { rewrite <- (Z.mul_1_l W) at 1. apply Z.mul_le_mono_nonneg_r; lia. }
  assert (Hup : U < (k + 1) * W).
  { apply (Z.mul_lt_mono_pos_r b); [exact Hb |]. lia. }
  assert (Hlo : (k - 1) * W < U).
  { apply (Z.mul_lt_mono_pos_r b); [exact Hb |]. lia. }
  split.
  - split.
    + apply Z.div_le_lower_bound; lia.
    + assert (U / W < k + 1); [| lia].
      apply Z.div_lt_upper_bound; lia.
  - intros Hne.
    assert (HremW1 : W <= rem * W).
    { rewrite <- (Z.mul_1_l W) at 1. apply Z.mul_le_mono_nonneg_r; lia. }
    assert (Hlo' : k * W < U).
    { apply (Z.mul_lt_mono_pos_r b); [exact Hb |]. lia. }
    apply Z.le_antisymm.
    + assert (U / W < k + 1); [| lia].
      apply Z.div_lt_upper_bound; lia.
    + apply Z.div_le_lower_bound; lia.
Qed.




Lemma fval_pos (L : Z) (m : positive) (e : Z) : 0 <= e + L -> 0 < fval L m e.
Proof.
  intros H. unfold fval. apply Z.mul_pos_pos; [lia |]. apply Z.pow_pos_nonneg; lia.
Qed.

(** From half a unit in the last place to a relative error. *)
Lemma half_ulp_relative (M K X : Z) :
  0 < K -> 2 ^ 52 <= M -> 2 * Z.abs (M * K - X) <= K ->
  2 ^ 53 * Z.abs (M * K - X) <= M * K.
Proof.
  intros HK HM H.
  assert (2 ^ 52 * K <= M * K) by (apply Z.mul_le_mono_nonneg_r; lia).
  change (2 ^ 53) with (2 ^ 52 * 2). 
  assert (2 ^ 52 * (2 * Z.abs (M * K - X)) <= 2 ^ 52 * K)
    by (apply Z.mul_le_mono_nonneg_l; lia).
  lia.
Qed.

(** The rounding of any mantissa in the normal range, with a relative
    error of 2^-53 at most. *)
Lemma binary_round_close (s : bool) (p : positive) (e L : Z) :
  -900 <= e -> Zpos (digits2_pos p) + e <= 1000 -> 0 <= e - 52 + L ->
  exists m e',
    binary_round 53 1024 s p e = S754_finite s m e' /\
    2 ^ 52 <= Zpos m < 2 ^ 53 /\ e - 52 <= e' <= Zpos (digits2_pos p) + e - 52 /\
    2 ^ 53 * Z.abs (fval L m e' - Zpos p * 2 ^ (e + L)) <= fval L m e'.
Proof.
  intros Hlo Hhi HL. unfold binary_round.
  pose proof (digits2_pos_spec p) as Hd.
  set (d := Zpos (digits2_pos p)) in *.
  assert (Hd1 : 1 <= d) by (unfold d; lia).
  rewrite (fexp_normal (d + e)) by lia.
  unfold shl_align.
  destruct (Z.lt_ge_cases d 53) as [Hsmall | Hbig].
  - (* the mantissa is shifted left, nothing is lost *)
    destruct (d + e - 53 - e) as [|k|k] eqn:E; try lia.
    assert (Hk : Zpos k = 53 - d) by lia.
    set (mz := Pos.iter xO p k).
    assert (Hmz : Zpos mz = Zpos p * 2 ^ (53 - d)).
    { unfold mz. rewrite iter_xO_pow, Hk. reflexivity. }
    assert (Hrange : 2 ^ 52 <= Zpos mz < 2 ^ 53).
    { rewrite Hmz.
      assert (E1 : 2 ^ (d - 1) * 2 ^ (53 - d) = 2 ^ 52).
      { rewrite <- Z.pow_add_r by lia. f_equal. lia. }
      assert (E2 : 2 ^ d * 2 ^ (53 - d) = 2 ^ 53).
      { rewrite <- Z.pow_add_r by lia. f_equal. lia. }
      assert (0 < 2 ^ (53 - d)) by (apply Z.pow_pos_nonneg; lia).
      split.
      - rewrite <- E1. apply Z.mul_le_mono_nonneg_r; lia.
      - rewrite <- E2. apply Z.mul_lt_mono_pos_r; lia. }
    assert (Hdz : Zpos (digits2_pos mz) = 53).
    { apply digits2_pos_unique. change (53 - 1) with 52. lia. }
    destruct (binary_round_aux_normal s mz (d + e - 53) loc_Exact (Zpos mz) 1)
      as (m & e' & Heq & Hm & He & Hclose);
      [lia | rewrite Hdz; lia | rewrite Hdz; lia | rewrite Hdz; lia
      | apply located_of_loc_exact; lia |].
    rewrite Hdz in He, Hclose. change (53 - 53) with 0 in He, Hclose.
    rewrite Z.pow_0_r, Z.mul_1_l, Z.mul_1_r, Z.sub_0_r in Hclose.
    assert (He' : e' = d + e - 53).
    { destruct (Z.eq_dec e' (d + e - 53)) as [H | H]; [exact H |].
      replace (e' - (d + e - 53)) with 1 in Hclose by lia.
      change (2 ^ 1) with 2 in Hclose. lia. }
    subst e'. replace (d + e - 53 - (d + e - 53)) with 0 in Hclose by lia.
    rewrite Z.pow_0_r, Z.mul_1_r in Hclose.
    assert (Hmm : Zpos m = Zpos mz) by lia.
    exists m, (d + e - 53). split; [exact Heq |]. split; [lia |]. split; [fold d; lia |].
    assert (Hval : fval L m (d + e - 53) = Zpos p * 2 ^ (e + L)).
    { unfold fval. rewrite Hmm, Hmz, <- Z.mul_assoc, <- Z.pow_add_r by lia.
      f_equal. f_equal. lia. }
    rewrite Hval, Z.sub_diag. simpl Z.abs. rewrite Z.mul_0_r.
    apply Z.mul_nonneg_nonneg; [lia |]. apply Z.pow_nonneg; lia.
  - destruct (d + e - 53 - e) as [|k|k] eqn:E; try lia.
    + (* exactly 53 digits *)
      destruct (binary_round_aux_normal s p e loc_Exact (Zpos p) 1)
        as (m & e' & Heq & Hm & He & Hclose);
        [lia | fold d; lia | fold d; lia | fold d; lia
        | apply located_of_loc_exact; lia |].
      fold d in He, Hclose. replace (d - 53) with 0 in He, Hclose by lia.
      rewrite Z.pow_0_r, Z.mul_1_l, Z.mul_1_r, Z.sub_0_r in Hclose.
      exists m, e'. split; [exact Heq |]. split; [exact Hm |]. split; [fold d; lia |].
      assert (Hs : 0 < 2 ^ (e + L)) by (apply Z.pow_pos_nonneg; lia).
      assert (Hval : fval L m e' = Zpos m * 2 ^ (e' - e) * 2 ^ (e + L)).
      { unfold fval. rewrite <- Z.mul_assoc, <- Z.pow_add_r by lia.
        f_equal. f_equal. lia. }
      rewrite Hval.
      replace (Zpos m * 2 ^ (e' - e) * 2 ^ (e + L) - Zpos p * 2 ^ (e + L))
        with ((Zpos m * 2 ^ (e' - e) - Zpos p) * 2 ^ (e + L)) by ring.
      rewrite Z.abs_mul, (Z.abs_eq (2 ^ (e + L))) by lia.
      assert (Hpk : 0 < 2 ^ (e' - e)) by (apply Z.pow_pos_nonneg; lia).
      assert (H52 : 2 ^ 52 <= Zpos m * 2 ^ (e' - e)).
      { apply Z.le_trans with (Zpos m * 1); [lia |].
        apply Z.mul_le_mono_nonneg_l; lia. }
      rewrite Z.mul_assoc. apply Z.mul_le_mono_nonneg_r; [lia |].
      change (2 ^ 53) with (2 ^ 52 * 2). lia.
    + (* more than 53 digits: rounding *)
      destruct (binary_round_aux_normal s p e loc_Exact (Zpos p) 1)
        as (m & e' & Heq & Hm & He & Hclose);
        [lia | fold d; lia | fold d; lia | fold d; lia
        | apply located_of_loc_exact; lia |].
      fold d in He, Hclose. set (n := d - 53) in *.
      rewrite Z.mul_1_r in Hclose.
      exists m, e'. split; [exact Heq |]. split; [exact Hm |]. split; [fold d; unfold n in He; lia |].
      assert (Hs : 0 < 2 ^ (e + L)) by (apply Z.pow_pos_nonneg; lia).
      assert (Hn : 0 <= n) by (unfold n; lia).
      assert (Hpn : 0 < 2 ^ n) by (apply Z.pow_pos_nonneg; lia).
      assert (Hpk : 0 < 2 ^ (e' - e - n)) by (apply Z.pow_pos_nonneg; lia).
      assert (Hval : fval L m e' = Zpos m * 2 ^ (e' - e - n) * 2 ^ n * 2 ^ (e + L)).
      { unfold fval. rewrite <- !Z.mul_assoc, <- !Z.pow_add_r by lia.
        f_equal. f_equal. lia. }
      rewrite Hval.
      replace (Zpos m * 2 ^ (e' - e - n) * 2 ^ n * 2 ^ (e + L) - Zpos p * 2 ^ (e + L))
        with ((Zpos m * 2 ^ (e' - e - n) * 2 ^ n - Zpos p) * 2 ^ (e + L)) by ring.
      rewrite Z.abs_mul, (Z.abs_eq (2 ^ (e + L))) by lia.
      rewrite Z.mul_assoc. apply Z.mul_le_mono_nonneg_r; [lia |].
      apply half_ulp_relative; [exact Hpn | | exact Hclose].
      apply Z.le_trans with (Zpos m * 1); [lia |].
      apply Z.mul_le_mono_nonneg_l; lia.
Qed.

Lemma shl_align_fst (m : positive) (e ez : Z) :
  ez <= e -> Zpos (fst (shl_align m e ez)) = Zpos m * 2 ^ (e - ez).
Proof.
  intros H. unfold shl_align.
  destruct (ez - e) as [|k|k] eqn:E; try lia; cbn [fst].
  - replace (e - ez) with 0 by lia. rewrite Z.pow_0_r. lia.
  - rewrite iter_xO_pow. f_equal. f_equal. lia.
Qed.

(** The difference of two positive floats: zero when they are equal,
    otherwise the exact difference with a relative error of 2^-53 at
    most, negative when the first is the smaller. *)
Lemma SFsub_close (mx my : positive) (ex ey L : Z) :
  -200 <= ex <= 100 -> -200 <= ey <= 100 -> 300 <= L ->
  2 ^ 52 <= Zpos mx < 2 ^ 53 -> 2 ^ 52 <= Zpos my < 2 ^ 53 ->
  let Vx := fval L mx ex in
  let Vy := fval L my ey in
  let r := SFsub 53 1024 (S754_finite false mx ex) (S754_finite false my ey) in
  (Vx = Vy -> r = S754_zero false) /\
  (Vx <> Vy ->
   exists m e, r = S754_finite (Vx <? Vy) m e /\
               2 ^ 52 <= Zpos m < 2 ^ 53 /\ -252 <= e <= 401 /\
               2 ^ 53 * Z.abs (fval L m e - Z.abs (Vx - Vy)) <= fval L m e).
Proof.
  intros Hex Hey HL Hmx Hmy Vx Vy r.
  unfold r, SFsub. cbn [cond_Zopp].
  set (ez := Z.min ex ey).
  rewrite (shl_align_fst mx ex ez), (shl_align_fst my ey ez) by (unfold ez; lia).
  set (dl := Zpos mx * 2 ^ (ex - ez) - Zpos my * 2 ^ (ey - ez)).
  assert (Hs : 0 < 2 ^ (ez + L)) by (apply Z.pow_pos_nonneg; unfold ez; lia).
  assert (Hdiff : Vx - Vy = dl * 2 ^ (ez + L)).
  { unfold Vx, Vy, fval, dl. rewrite Z.mul_sub_distr_r, <- !Z.mul_assoc.
    rewrite <- !Z.pow_add_r by (unfold ez; lia).
    f_equal; f_equal; f_equal; lia. }
  assert (Hpx : 0 < 2 ^ (ex - ez)) by (apply Z.pow_pos_nonneg; unfold ez; lia).
  assert (Hpy : 0 < 2 ^ (ey - ez)) by (apply Z.pow_pos_nonneg; unfold ez; lia).
  assert (Hbx : Zpos mx * 2 ^ (ex - ez) < 2 ^ (53 + (ex - ez))).
  { rewrite Z.pow_add_r by (unfold ez; lia). apply Z.mul_lt_mono_pos_r; lia. }
  assert (Hby : Zpos my * 2 ^ (ey - ez) < 2 ^ (53 + (ey - ez))).
  { rewrite Z.pow_add_r by (unfold ez; lia). apply Z.mul_lt_mono_pos_r; lia. }
  assert (Hmono : forall k, 0 <= k <= 353 -> 2 ^ k <= 2 ^ 353)
    by (intros k Hk; apply Z.pow_le_mono_r; lia).
  assert (Hbig : Z.abs dl < 2 ^ 353).
  { pose proof (Hmono (53 + (ex - ez)) ltac:(unfold ez; lia)).
    pose proof (Hmono (53 + (ey - ez)) ltac:(unfold ez; lia)).
    assert (0 < Zpos mx * 2 ^ (ex - ez)) by (apply Z.mul_pos_pos; lia).
    assert (0 < Zpos my * 2 ^ (ey - ez)) by (apply Z.mul_pos_pos; lia).
    unfold dl. lia. }
  split.
  - intros Heq. assert (Hz : dl * 2 ^ (ez + L) = 0) by lia.
    apply Z.mul_eq_0 in Hz as [Hz | Hz]; [| lia]. rewrite Hz. reflexivity.
  - intros Hne.
    destruct dl as [|p|p] eqn:Edl.
    + rewrite Z.mul_0_l in Hdiff. lia.
    + cbn [binary_normalize].
      pose proof (digits_range p 353 ltac:(lia) ltac:(simpl in Hbig; lia)) as Hd.
      destruct (binary_round_close false p ez L) as (m & e & Hr & Hm & He & Hclose);
        [unfold ez; lia | unfold ez; lia | unfold ez; lia |].
      exists m, e.
      assert (Hpp : 0 < Zpos p * 2 ^ (ez + L)) by (apply Z.mul_pos_pos; lia).
      assert (Hlt : (Vx <? Vy) = false) by (apply Z.ltb_ge; lia).
      rewrite Hlt. split; [exact Hr |]. split; [exact Hm |].
      split; [unfold ez in He; lia |].
      rewrite Hdiff, (Z.abs_eq (Zpos p * 2 ^ (ez + L))) by lia. exact Hclose.
    + cbn [binary_normalize].
      pose proof (digits_range p 353 ltac:(lia) ltac:(simpl in Hbig; lia)) as Hd.
      destruct (binary_round_close true p ez L) as (m & e & Hr & Hm & He & Hclose);
        [unfold ez; lia | unfold ez; lia | unfold ez; lia |].
      exists m, e.
      assert (Hpp : 0 < Zpos p * 2 ^ (ez + L)) by (apply Z.mul_pos_pos; lia).
      assert (Hnn : Z.neg p * 2 ^ (ez + L) = - (Zpos p * 2 ^ (ez + L)))
        by (rewrite <- Pos2Z.opp_pos; ring).
      assert (Hlt : (Vx <? Vy) = true) by (apply Z.ltb_lt; lia).
      rewrite Hlt. split; [exact Hr |]. split; [exact Hm |].
      split; [unfold ez in He; lia |].
      rewrite Hdiff, Hnn, Z.abs_opp, (Z.abs_eq (Zpos p * 2 ^ (ez + L))) by lia.
      exact Hclose.
Qed.

(** The quotient of two ints, with a relative error of 2^-53 at most. *)
Lemma truediv_relative (n o L : Z) :
  0 < n < 2 ^ 53 -> 0 < o < 2 ^ 53 -> 105 <= L ->
  exists mq e,
    PyNum.truediv n o = Ok (S754_finite false mq e) /\
    2 ^ 52 <= Zpos mq < 2 ^ 53 /\ -105 <= e <= 2 /\
    2 ^ 53 * Z.abs (fval L mq e * o - n * 2 ^ L) <= fval L mq e * o.
Proof.
  intros Hn Ho HL.
  destruct (truediv_close n o Hn Ho) as (mq & e & sh & t & Hdiv & Hmq & Hsh & Ht & He & HA).
  exists mq, e. split; [exact Hdiv |]. split; [exact Hmq |]. split; [lia |].
  assert (HK : 0 < 2 ^ (L - sh)) by (apply Z.pow_pos_nonneg; lia).
  assert (HT : 0 < 2 ^ t) by (apply Z.pow_pos_nonneg; lia).
  assert (Hval : fval L mq e * o = Zpos mq * (2 ^ t * o * 2 ^ (L - sh))).
  { unfold fval. replace (e + L) with (t + (L - sh)) by lia.
    rewrite Z.pow_add_r by lia. ring. }
  assert (Hx : n * 2 ^ L = n * 2 ^ sh * 2 ^ (L - sh)).
  { rewrite <- Z.mul_assoc, <- Z.pow_add_r by lia. f_equal. f_equal. lia. }
  rewrite Hval. apply half_ulp_relative; [| lia |].
  - apply Z.mul_pos_pos; [apply Z.mul_pos_pos |]; lia.
  - rewrite Hx.
    replace (Zpos mq * (2 ^ t * o * 2 ^ (L - sh)) - n * 2 ^ sh * 2 ^ (L - sh))
      with ((Zpos mq * 2 ^ t * o - n * 2 ^ sh) * 2 ^ (L - sh)) by ring.
    rewrite Z.abs_mul, (Z.abs_eq (2 ^ (L - sh))) by lia.
    rewrite Z.mul_assoc. apply Z.mul_le_mono_nonneg_r; lia.
Qed.

(** The product of two floats, with a relative error of 2^-53 at most. *)
Lemma SFmul_relative (s : bool) (ma mb : positive) (ea eb L : Z) :
  2 ^ 52 <= Zpos ma < 2 ^ 53 -> 2 ^ 52 <= Zpos mb < 2 ^ 53 ->
  -900 <= ea + eb <= 900 -> 0 <= ea + eb + L ->
  exists mp ep,
    SFmul 53 1024 (S754_finite s ma ea) (S754_finite false mb eb)
    = S754_finite s mp ep /\
    2 ^ 52 <= Zpos mp < 2 ^ 53 /\ ea + eb <= ep /\
    2 ^ 53 * Z.abs (fval L mp ep - Zpos ma * Zpos mb * 2 ^ (ea + eb + L)) <= fval L mp ep.
Proof.
  intros Ha Hb He HL. unfold SFmul.
  replace (xorb s false) with s by (destruct s; reflexivity).
  assert (Hprod : 2 ^ 104 <= Zpos (ma * mb) < 2 ^ 106).
  { rewrite Pos2Z.inj_mul.
    change (2 ^ 104) with (2 ^ 52 * 2 ^ 52). change (2 ^ 106) with (2 ^ 53 * 2 ^ 53).
    split; [apply Z.mul_le_mono_nonneg | apply Z.mul_lt_mono_nonneg]; lia. }
  set (d := Zpos (digits2_pos (ma * mb))).
  assert (Hd : d = 105 \/ d = 106).
  { destruct (Z.lt_ge_cases (Zpos (ma * mb)) (2 ^ 105)).
    - left. apply digits2_pos_unique. change (105 - 1) with 104. lia.
    - right. apply digits2_pos_unique. change (106 - 1) with 105. lia. }
  destruct (binary_round_aux_normal s (ma * mb) (ea + eb) loc_Exact (Zpos (ma * mb)) 1)
    as (mp & ep & Hbra & Hmp & Hep & Hclose);
    [lia | fold d; lia | fold d; lia | fold d; lia
    | apply located_of_loc_exact; lia |].
  fold d in Hep, Hclose. set (n := d - 53) in *.
  rewrite Z.mul_1_r, Pos2Z.inj_mul in Hclose.
  exists mp, ep. split; [exact Hbra |]. split; [exact Hmp |]. split; [unfold n in Hep; lia |].
  assert (Hs : 0 < 2 ^ (ea + eb + L)) by (apply Z.pow_pos_nonneg; lia).
  assert (Hn : 0 <= n) by (unfold n; lia).
  assert (Hpn : 0 < 2 ^ n) by (apply Z.pow_pos_nonneg; lia).
  assert (Hpk : 0 < 2 ^ (ep - (ea + eb) - n)) by (apply Z.pow_pos_nonneg; lia).
  assert (Hval : fval L mp ep
                 = Zpos mp * 2 ^ (ep - (ea + eb) - n) * 2 ^ n * 2 ^ (ea + eb + L)).
  { unfold fval. rewrite <- !Z.mul_assoc, <- !Z.pow_add_r by lia.
    f_equal. f_equal. lia. }
  rewrite Hval.
  replace (Zpos mp * 2 ^ (ep - (ea + eb) - n) * 2 ^ n * 2 ^ (ea + eb + L)
           - Zpos ma * Zpos mb * 2 ^ (ea + eb + L))
    with ((Zpos mp * 2 ^ (ep - (ea + eb) - n) * 2 ^ n - Zpos ma * Zpos mb)
          * 2 ^ (ea + eb + L)) by ring.
  rewrite Z.abs_mul, (Z.abs_eq (2 ^ (ea + eb + L))) by lia.
  rewrite Z.mul_assoc. apply Z.mul_le_mono_nonneg_r; [lia |].
  apply half_ulp_relative; [exact Hpn | | exact Hclose].
  apply Z.le_trans with (Zpos mp * 1); [lia |].
  apply Z.mul_le_mono_nonneg_l; lia.
Qed.

(** [int] of a float truncates its value toward zero. *)
Lemma int_of_float_scaled (s : bool) (m : positive) (e L : Z) :
  0 <= L -> 0 <= e + L ->
  PyNum.int_of_float (S754_finite s m e)
  = Ok (if s then - (fval L m e / 2 ^ L) else fval L m e / 2 ^ L).
Proof.
  intros HL He.
  pose proof (int_of_float_floor m e (e + L) L He HL ltac:(lia)) as H.
  unfold PyNum.int_of_float in *. injection H as H. unfold fval. now rewrite H.
Qed.

(** The three rounding errors of [(1 - n / o) * 100] add up to less
    than 1/o; [a], [b], [c], [d] and [e] stand for the quotient, n / o, the
    difference, 1 and the product, all times o and in units of W. *)
Lemma percent_window (a b c d e W : Z) :
  0 < W -> 0 <= b -> 0 < d -> 0 < a -> 0 < c -> 0 < e ->
  2 ^ 53 * Z.abs (a - b) <= a ->
  2 ^ 53 * Z.abs (c - Z.abs (d - a)) <= c ->
  2 ^ 53 * Z.abs (e - 100 * c) <= e ->
  d + 2 * b <= 3 * 2 ^ 40 * W ->
  Z.abs (e - 100 * Z.abs (d - b)) < W.
Proof.
  intros HW Hb Hd Ha Hc He H1 H2 H3 HB.
  change (2 ^ 53) with 9007199254740992 in *.
  change (2 ^ 40) with 1099511627776 in *.
  lia.
Qed.

Lemma float_one : PyNum.float_of_int 1 = Ok (S754_finite false 4503599627370496 (-52)).
Proof. reflexivity. Qed.

Lemma float_hundred :
  PyNum.float_of_int 100 = Ok (S754_finite false 7036874417766400 (-46)).
Proof. reflexivity. Qed.

(** From the magnitude and the sign to the truncated quotient. *)
Lemma floor_toward_zero (N o q : Z) (s : bool) :
  0 < o -> 0 <= q ->
  Z.abs N / o - 1 <= q <= Z.abs N / o ->
  ((Z.abs N) mod o <> 0 -> q = Z.abs N / o) ->
  (0 < N -> s = false) -> (N < 0 -> s = true) ->
  truncated_toward_zero N o (if s then - q else q).
Proof.
  intros Ho Hq Hwin Hex Hpos Hneg. unfold truncated_toward_zero.
  destruct (Z.lt_trichotomy N 0) as [HN | [HN | HN]].
  - rewrite (Hneg HN).
    assert (EN : N = - Z.abs N) by lia.
    assert (Equot : Z.quot N o = - (Z.abs N / o)).
    { rewrite EN at 1. rewrite Z.quot_opp_l, Z.quot_div_nonneg by lia. reflexivity. }
    assert (Erem : Z.rem N o = - (Z.abs N mod o)).
    { rewrite EN at 1. rewrite Z.rem_opp_l, Z.rem_mod_nonneg by lia. reflexivity. }
    rewrite Equot, Erem, (Z.sgn_neg N HN).
    destruct (Z.eq_dec (Z.abs N mod o) 0) as [E | E].
    + destruct (Z.eq_dec q (Z.abs N / o)); [left; lia | right; lia].
    + left. rewrite (Hex E). reflexivity.
  - subst N. simpl Z.abs in *. rewrite Z.div_0_l in Hwin by lia.
    assert (q = 0) by lia. subst q. left.
    rewrite Z.quot_0_l by lia. destruct s; reflexivity.
  - rewrite (Hpos HN).
    assert (EN : Z.abs N = N) by lia. rewrite EN in *.
    rewrite Z.quot_div_nonneg, Z.rem_mod_nonneg, (Z.sgn_pos N HN) by lia.
    destruct (Z.eq_dec (N mod o) 0) as [E | E].
    + destruct (Z.eq_dec q (N / o)); [left; lia | right; lia].
    + left. exact (Hex E).
Qed.

(** [int((1 - n / o) * 100)] is the exact percentage truncated toward
    zero, or one closer to zero when the percentage is a whole number. *)
Lemma compression_floor (o n : Z) :
  0 < o < 2 ^ 40 -> 0 <= n < 2 ^ 40 ->
  exists r, compression_percent o n = Ok r /\
            truncated_toward_zero (100 * (o - n)) o r.
Proof.
  intros Ho Hn. unfold compression_percent.
  destruct (Z.gtb_spec o 0) as [_ | Hbad]; [| lia].
  assert (H40 : 2 ^ 40 < 2 ^ 53) by (apply Z.pow_lt_mono_r; lia).
  destruct (Z.eq_dec n 0) as [-> | Hn0].
  - (* nothing left of the file *)
    unfold PyNum.truediv. destruct (Z.eqb_spec o 0) as [| _]; [lia |].
    destruct (Z.ltb_spec o 0) as [| _]; [lia |].
    exists 100. split; [reflexivity |]. left.
    rewrite Z.sub_0_r, Z.quot_mul by lia. reflexivity.
  - set (L := 400).
    destruct (truediv_relative n o L ltac:(lia) ltac:(lia) ltac:(unfold L; lia))
      as (mq & e & Hdiv & Hmq & He & H1).
    rewrite Hdiv. cbn [pybind].
    unfold PyNum.int_sub_float. rewrite float_one. cbn [pybind].
    unfold PyNum.float_mul_int. rewrite float_hundred. cbn [pybind].
    unfold PyNum.prec, PyNum.emax.
    destruct (SFsub_close 4503599627370496 mq (-52) e L)
      as [Hzero Hdiff]; [lia | lia | unfold L; lia | simpl; lia | exact Hmq |].
    set (W := 2 ^ L) in *.
    assert (HW : 0 < W) by (unfold W, L; apply Z.pow_pos_nonneg; lia).
    assert (HV1 : fval L 4503599627370496 (-52) = W) by reflexivity.
    rewrite HV1 in Hzero, Hdiff.
    set (Vq := fval L mq e) in *.
    assert (HVq : 0 < Vq) by (apply fval_pos; unfold L; lia).
    assert (Hoo : 0 < o * W) by (apply Z.mul_pos_pos; lia).
    assert (Hnn : 0 <= n * W) by (apply Z.mul_nonneg_nonneg; lia).
    assert (Hqo : 0 < Vq * o) by (apply Z.mul_pos_pos; lia).
    assert (Hbound : o * W + 2 * (n * W) <= 3 * 2 ^ 40 * W).
    { replace (o * W + 2 * (n * W)) with ((o + 2 * n) * W) by ring.
      apply Z.mul_le_mono_nonneg_r; lia. }
    destruct (Z.eq_dec W Vq) as [Heq | Hne].
    + (* the quotient rounds to one *)
      rewrite (Hzero Heq). cbn [SFmul xorb PyNum.int_of_float].
      exists 0. split; [reflexivity |]. left.
      assert (Hon : o = n).
      { rewrite <- Heq in H1.
        replace (W * o - n * W) with ((o - n) * W) in H1 by ring.
        rewrite Z.abs_mul, (Z.abs_eq W) in H1 by lia.
        assert (2 ^ 53 * Z.abs (o - n) <= o).
        { apply (Z.mul_le_mono_pos_r _ _ W HW). lia. }
        change (2 ^ 53) with 9007199254740992 in *.
        change (2 ^ 40) with 1099511627776 in *. lia. }
      rewrite Hon, Z.sub_diag, Z.mul_0_r. symmetry. apply Z.quot_0_l. exact Hn0.
    + destruct (Hdiff Hne) as (md & ed & Hsub & Hmd & Hed & H2).
      rewrite Hsub.
      destruct (SFmul_relative (W <? Vq) md 7036874417766400 ed (-46) L)
        as (mp & ep & Hmul & Hmp & Hep & H3);
        [exact Hmd | simpl; lia | lia | unfold L; lia |].
      rewrite Hmul.
      rewrite (int_of_float_scaled (W <? Vq) mp ep L) by (unfold L; lia).
      fold W.
      set (Vd := fval L md ed) in *. set (Vp := fval L mp ep) in *.
      assert (HVd : 0 < Vd) by (apply fval_pos; unfold L; lia).
      assert (HVp : 0 < Vp) by (apply fval_pos; unfold L; lia).
      assert (Hprod : Zpos md * Zpos 7036874417766400 * 2 ^ (ed + -46 + L) = 100 * Vd).
      { unfold Vd, fval.
        change (Zpos 7036874417766400) with (100 * 2 ^ 46).
        replace (ed + L) with (46 + (ed + -46 + L)) by (unfold L; lia).
        rewrite (Z.pow_add_r 2 46 (ed + -46 + L)) by (unfold L; lia). ring. }
      rewrite Hprod in H3.
      (* everything times o *)
      assert (H2o : 2 ^ 53 * Z.abs (Vd * o - Z.abs (o * W - Vq * o)) <= Vd * o).
      { replace (o * W - Vq * o) with ((W - Vq) * o) by ring.
        rewrite (Z.abs_mul (W - Vq)), (Z.abs_eq o) by lia.
        replace (Vd * o - Z.abs (W - Vq) * o) with ((Vd - Z.abs (W - Vq)) * o) by ring.
        rewrite Z.abs_mul, (Z.abs_eq o), Z.mul_assoc by lia.
        apply Z.mul_le_mono_nonneg_r; lia. }
      assert (H3o : 2 ^ 53 * Z.abs (Vp * o - 100 * (Vd * o)) <= Vp * o).
      { replace (Vp * o - 100 * (Vd * o)) with ((Vp - 100 * Vd) * o) by ring.
        rewrite Z.abs_mul, (Z.abs_eq o), Z.mul_assoc by lia.
        apply Z.mul_le_mono_nonneg_r; lia. }
      assert (Hdo : 0 < Vd * o) by (apply Z.mul_pos_pos; lia).
      assert (Hpo : 0 < Vp * o) by (apply Z.mul_pos_pos; lia).
      pose proof (percent_window (Vq * o) (n * W) (Vd * o) (o * W) (Vp * o) W
                    HW Hnn Hoo Hqo Hdo Hpo H1 H2o H3o Hbound) as Hwin.
      assert (Habs : 100 * Z.abs (o * W - n * W) = Z.abs (100 * (o - n)) * W).
      { replace (o * W - n * W) with ((o - n) * W) by ring.
        rewrite !Z.abs_mul, (Z.abs_eq W), (Z.abs_eq 100) by lia. ring. }
      rewrite Habs in Hwin.
      destruct (quotient_window Vp W (Z.abs (100 * (o - n))) o
                  (proj1 Ho) HW (Z.abs_nonneg _) Hwin) as [Hq Hex].
      eexists. split; [reflexivity |].
      apply floor_toward_zero.
      * exact (proj1 Ho).
      * apply Z.div_pos; [apply Z.lt_le_incl, HVp | exact HW].
      * exact Hq.
      * exact Hex.
      * (* the file shrank: the quotient is below one *)
        intros Hpos. apply Z.ltb_ge.
        assert (Hle : n * W <= (o - 1) * W)
          by (apply Z.mul_le_mono_nonneg_r; [apply Z.lt_le_incl, HW | clear - Hpos; lia]).
        assert (Hup : o * W <= 2 ^ 40 * W)
          by (apply Z.mul_le_mono_nonneg_r; [apply Z.lt_le_incl, HW | clear - Ho; lia]).
        assert (Hlt : Vq * o < W * o).
        { clear - H1 Hle Hup HW Hqo. 
          change (2 ^ 53) with 9007199254740992 in *.
          change (2 ^ 40) with 1099511627776 in *.
          set (a := Vq * o) in *. set (b := n * W) in *.
          replace ((o - 1) * W) with (o * W - W) in Hle by ring.
          rewrite (Z.mul_comm W o). set (d := o * W) in *.
          clearbody a b d W. lia. }
        apply Z.lt_le_incl. apply (Z.mul_lt_mono_pos_r o); [exact (proj1 Ho) | exact Hlt].
      * intros Hneg. apply Z.ltb_lt.
        assert (Hle : (o + 1) * W <= n * W)
          by (apply Z.mul_le_mono_nonneg_r; [apply Z.lt_le_incl, HW | clear - Hneg; lia]).
        assert (Hup : n * W <= 2 ^ 40 * W)
          by (apply Z.mul_le_mono_nonneg_r; [apply Z.lt_le_incl, HW | clear - Hn; lia]).
        apply (Z.mul_lt_mono_pos_r o); [exact (proj1 Ho) |].
        clear - H1 Hle Hup HW Hqo.
        change (2 ^ 53) with 9007199254740992 in *.
        change (2 ^ 40) with 1099511627776 in *.
        set (a := Vq * o) in *. set (b := n * W) in *.
        replace ((o + 1) * W) with (o * W + W) in Hle by ring.
        rewrite (Z.mul_comm W o). set (d := o * W) in *.
        clearbody a b d W. lia.
Qed.

End FloatFacts.

(** ** Resizing *)


(** The exact case: a square of 4900 pixels with a maximum of 100 is
    encoded 99 pixels wide, since 4900 * (100 / 4900) falls just below
    100 in binary64. *)
Example square_loses_a_pixel : output_dimensions 100 4900 4900 = Ok (99, 100)%Z.
Proof. vm_compute. reflexivity. Qed.



(** ** The compression percentage *)

(** C3 as stated fails: a 3-byte file transcoded to 1 byte is reported
    as 66 percent saved, while (1 - 1/3) * 100 rounds to 67. *)
Lemma compression_not_rounded :
  compression_percent 3 1 = Ok 66%Z /\
  claimed_compression 3 1 = Ok 67%Z /\
  nearest ((3 - 1) * 100) 3 = 67%Z /\
  compression_percent 3 1 <> claimed_compression 3 1.
Proof.
  split; [vm_compute; reflexivity |].
  split; [vm_compute; reflexivity |].
  split; [vm_compute; reflexivity |].
  vm_compute. congruence.
Qed.

(** The exact case: 10 bytes transcoded to 9 are reported as 9 percent
    saved, since (1 - 9 / 10) * 100 falls just below 10 in binary64. *)
Example tenth_reported_as_nine : compression_percent 10 9 = Ok 9%Z.
Proof. vm_compute. reflexivity. Qed.

Lemma int_of_float_no_division_error (f : PyNum.float) :
  PyNum.int_of_float f <> Raise ZeroDivisionError.
Proof. destruct f; simpl; discriminate. Qed.

Lemma check_finite_no_division_error (f : PyNum.float) :
  PyNum.check_finite f <> Raise ZeroDivisionError.
Proof. destruct f; simpl; discriminate. Qed.

Lemma pybind_no_division_error {A B : Type} (r : pyres A) (k : A -> pyres B) :
  r <> Raise ZeroDivisionError ->
  (forall a, k a <> Raise ZeroDivisionError) ->
  pybind r k <> Raise ZeroDivisionError.
Proof.
  intros Hr Hk. destruct r as [a | e]; simpl; [apply Hk |].
  intros [= ->]. now apply Hr.
Qed.

Lemma truediv_no_division_error (a b : Z) :
  b <> 0%Z -> PyNum.truediv a b <> Raise ZeroDivisionError.
Proof.
  intros Hb. unfold PyNum.truediv.
  destruct (Z.eqb_spec b 0); [contradiction |].
  destruct a; [discriminate | apply check_finite_no_division_error ..].
Qed.

(** C3, amended: for a positive original size the percentage is
    [int((1 - new_size / orig_size) * 100)], the binary64 value truncated
    toward zero: for sizes below 2^40 it is the exact percentage
    [100 * (orig_size - new_size) / orig_size] truncated toward zero, not
    rounded, and one closer to zero is possible when the exact percentage
    is a whole number; for an original size of zero it is 0; no division
    by zero is ever raised. *)
Theorem compression_truncated (orig_size new_size : Z) :
  ((0 < orig_size)%Z ->
   compression_percent orig_size new_size
   = try ratio <- PyNum.truediv new_size orig_size in
     try saved <- PyNum.int_sub_float 1 ratio in
     try percent <- PyNum.float_mul_int saved 100 in
     PyNum.int_of_float percent) /\
  ((0 < orig_size < 2 ^ 40)%Z -> (0 <= new_size < 2 ^ 40)%Z ->
   exists r, compression_percent orig_size new_size = Ok r /\
             truncated_toward_zero (100 * (orig_size - new_size)) orig_size r) /\
  ((orig_size <= 0)%Z -> compression_percent orig_size new_size = Ok 0%Z) /\
  compression_percent orig_size new_size <> Raise ZeroDivisionError /\
  compression_percent 0 new_size = Ok 0%Z.
Proof.
  split; [| split; [| split; [| split]]].
  - unfold compression_percent.
    intros H. destruct (Z.gtb_spec orig_size 0); [reflexivity | lia].
  - apply compression_floor.
  - unfold compression_percent.
    intros H. destruct (Z.gtb_spec orig_size 0); [lia | reflexivity].
  - unfold compression_percent.
    destruct (Z.gtb_spec orig_size 0) as [Hpos |]; [| discriminate].
    apply pybind_no_division_error; [apply truediv_no_division_error; lia |].
    intros ratio. apply int_of_float_no_division_error.
  - reflexivity.
Qed.

Lemma compression_truncated_witness :
  (0 < 10 < 2 ^ 40)%Z /\ (0 <= 9 < 2 ^ 40)%Z /\
  exists r, compression_percent 10 9 = Ok r /\
            truncated_toward_zero (100 * (10 - 9)) 10 r.
Proof.
  assert (B1 : (0 < 10 < 2 ^ 40)%Z) by (split; reflexivity).
  assert (B2 : (0 <= 9 < 2 ^ 40)%Z) by (split; [discriminate | reflexivity]).
  split; [exact B1 |]. split; [exact B2 |].
  exact (proj1 (proj2 (compression_truncated 10 9)) B1 B2).
Defined.
